(** * padded-blocks: blank lines at the edges of blocks

    A shallow embedding of [lib/rules/padded-blocks.js] and the properties
    of its padding analysis.  The rule is a closure over a rule context; here
    the context is an explicit argument of every function of the rule.

    Line numbers, columns and range offsets are JavaScript numbers holding
    integers; they are modelled in [Z], so that [blockEnd - 2] may go below
    zero as it does in the source. *)

From stdpp Require Import base option list strings.
From Stdlib Require Import ZArith Lia.

Local Open Scope string_scope.
Local Open Scope list_scope.
Local Open Scope Z_scope.

(** ** ESTree data: positions, tokens, nodes *)

Record Position := { line : Z; column : Z }.

Record SourceLocation := { start : Position; end_ : Position }.

(** A token or a comment.  Comments have type ["Line"] or ["Block"]. *)
Record Token := {
  tok_type : string;
  tok_loc : SourceLocation;
  tok_range : Z * Z
}.

(** An AST node.  [node_body] is the [body] of a BlockStatement and
    [node_cases] the [cases] of a SwitchStatement; a property the node does
    not have is the empty list. *)
#[local] Set Warnings "-register-all".
Inductive ASTNode := {
  node_type : string;
  node_loc : SourceLocation;
  node_range : Z * Z;
  node_body : list ASTNode;
  node_cases : list ASTNode
}.

(** Nodes and tokens are both passed to the token store, which only reads
    their [range]. *)
Class Ranged (A : Type) := range : A → Z * Z.
#[global] Instance token_ranged : Ranged Token := tok_range.
#[global] Instance node_ranged : Ranged ASTNode := node_range.

(** ** Completions

    A JavaScript evaluation either returns a value or throws.  [OutOfFuel]
    is the model's own third outcome: the bound given to a loop was used up
    before the loop ended. *)

Inductive Completion (A : Type) :=
  | Normal (a : A)
  | TypeError
  | OutOfFuel.
Arguments Normal {A} a.
Arguments TypeError {A}.
Arguments OutOfFuel {A}.

#[global] Instance completion_ret : MRet Completion := λ A a, Normal a.
#[global] Instance completion_bind : MBind Completion := λ A B f c,
  match c with
  | Normal a => f a
  | TypeError => TypeError
  | OutOfFuel => OutOfFuel
  end.

(** Reading a property of a value that may be [undefined]. *)
Definition deref {A} (v : option A) : Completion A :=
  match v with
  | Some a => Normal a
  | None => TypeError
  end.

(** ** The token store of SourceCode *)

Module TokenStore.

(** Modelled from the spec: the token store behind [sourceCode] (its file
    is not part of [lib/rules]).  A store holds an ordered sequence of
    tokens; [starts] and [ends] map a range offset to the index of the
    token that starts, respectively ends, there.  A lookup that finds
    nothing, or an index outside the sequence, gives [undefined]. *)
Definition starts (tokens : list Token) (offset : Z) : option nat :=
  fst <$> list_find (λ t, (tok_range t).1 = offset) tokens.

Definition ends (tokens : list Token) (offset : Z) : option nat :=
  fst <$> list_find (λ t, (tok_range t).2 = offset) tokens.

Definition getTokenBefore `{Ranged A} (tokens : list Token) (node : A)
  : option Token :=
  i ← starts tokens (range node).1;
  match i with
  | O => None
  | S j => tokens !! j
  end.

Definition getTokenAfter `{Ranged A} (tokens : list Token) (node : A)
  : option Token :=
  i ← ends tokens (range node).2;
  tokens !! S i.

Definition getFirstToken `{Ranged A} (tokens : list Token) (node : A)
  : option Token :=
  i ← starts tokens (range node).1;
  tokens !! i.

(** A node is taken to end where one of its tokens ends.  For a node that
    does not, this lookup gives [undefined]; the properties below that say
    which token is found are stated for a node that does. *)
Definition getLastToken `{Ranged A} (tokens : list Token) (node : A)
  : option Token :=
  i ← ends tokens (range node).2;
  tokens !! i.

End TokenStore.

(** Checks if the given parameter is a comment node. *)
Definition isComment (node : Token) : bool :=
  bool_decide (tok_type node = "Line") || bool_decide (tok_type node = "Block").

(** Modelled from the spec: the SourceCode object (its file is not part of
    [lib/rules]).  It holds the single ordered sequence of tokens and
    comments.  The [...Token...] methods work on the code tokens alone, the
    [...TokenOrComment...] methods on the whole sequence. *)
Record SourceCode := { tokensAndComments : list Token }.

Definition ast_tokens (sourceCode : SourceCode) : list Token :=
  filter (λ t, isComment t = false) (tokensAndComments sourceCode).

Definition getTokenBefore `{Ranged A} (sourceCode : SourceCode) (node : A) :=
  TokenStore.getTokenBefore (ast_tokens sourceCode) node.

Definition getFirstToken `{Ranged A} (sourceCode : SourceCode) (node : A) :=
  TokenStore.getFirstToken (ast_tokens sourceCode) node.

Definition getLastToken `{Ranged A} (sourceCode : SourceCode) (node : A) :=
  TokenStore.getLastToken (ast_tokens sourceCode) node.

Definition getTokenOrCommentBefore `{Ranged A} (sourceCode : SourceCode)
    (node : A) :=
  TokenStore.getTokenBefore (tokensAndComments sourceCode) node.

Definition getTokenOrCommentAfter `{Ranged A} (sourceCode : SourceCode)
    (node : A) :=
  TokenStore.getTokenAfter (tokensAndComments sourceCode) node.

(** ** The rule context and its reports *)

(** One call of [context.report]: with a node and a message only
    ([report_loc] is [None]), or with a descriptor that carries a [loc]. *)
Record Report := {
  report_node : ASTNode;
  report_loc : option Position;
  report_message : string
}.

Record RuleContext := {
  options : list string;
  getSourceCode : SourceCode
}.

(** Modelled from the spec: the diagnostic sink (outside [lib/rules])
    locates a report that carries no [loc] at the start of its node. *)
Definition reportLocation (r : Report) : Position :=
  match report_loc r with
  | Some l => l
  | None => start (node_loc (report_node r))
  end.

(** ** The rule *)

Section Rule.

Variable context : RuleContext.

Definition requirePadding : bool :=
  negb (bool_decide (options context !! O = Some "never")).

Definition ALWAYS_MESSAGE : string := "Block must be padded by blank lines.".
Definition NEVER_MESSAGE : string :=
  "Block must not be padded by blank lines.".

Definition sourceCode : SourceCode := getSourceCode context.

(** Gets the open brace token from a given node.  [node.cases[0]] of an
    empty [cases] is [undefined], whose [range] the token store cannot
    read. *)
Definition getOpenBrace (node : ASTNode) : Completion (option Token) :=
  if bool_decide (node_type node = "SwitchStatement") then
    case0 ← deref (node_cases node !! O);
    Normal (getTokenBefore sourceCode case0)
  else
    Normal (getFirstToken sourceCode node).

(** The [do ... while] of [isBlockTopPadded]: one round per unit of
    [fuel]. *)
Fixpoint skipLeadingComments (fuel : nat) (blockStart : Z) (first : Token)
  : Completion Token :=
  match fuel with
  | O => OutOfFuel
  | S fuel' =>
      first' ← deref (getTokenOrCommentAfter sourceCode first);
      if isComment first'
         && bool_decide (line (start (tok_loc first')) = blockStart)
      then skipLeadingComments fuel' blockStart first'
      else Normal first'
  end.

(** Checks if the given non empty block node has a blank line before its
    first child node. *)
Definition isBlockTopPadded (fuel : nat) (node : ASTNode)
  : Completion bool :=
  openBrace ← getOpenBrace node ≫= deref;
  let blockStart := line (start (tok_loc openBrace)) in
  let expectedFirstLine := blockStart + 2 in
  first ← skipLeadingComments fuel blockStart openBrace;
  let firstLine := line (start (tok_loc first)) in
  Normal (bool_decide (expectedFirstLine ≤ firstLine)).

(** The [do ... while] of [isBlockBottomPadded]. *)
Fixpoint skipTrailingComments (fuel : nat) (blockEnd : Z) (last : Token)
  : Completion Token :=
  match fuel with
  | O => OutOfFuel
  | S fuel' =>
      last' ← deref (getTokenOrCommentBefore sourceCode last);
      if isComment last'
         && bool_decide (line (end_ (tok_loc last')) = blockEnd)
      then skipTrailingComments fuel' blockEnd last'
      else Normal last'
  end.

(** Checks if the given non empty block node has a blank line after its
    last child node. *)
Definition isBlockBottomPadded (fuel : nat) (node : ASTNode)
  : Completion bool :=
  closeBrace ← deref (getLastToken sourceCode node);
  let blockEnd := line (end_ (tok_loc closeBrace)) in
  let expectedLastLine := blockEnd - 2 in
  last ← skipTrailingComments fuel blockEnd closeBrace;
  let lastLine := line (end_ (tok_loc last)) in
  Normal (bool_decide (lastLine ≤ expectedLastLine)).

(** [context.report(node, message)]. *)
Definition reportNode (node : ASTNode) (message : string) : Report :=
  {| report_node := node; report_loc := None; report_message := message |}.

(** [context.report({node, loc: {line: node.loc.end.line,
    column: node.loc.end.column - 1}, message})]. *)
Definition reportCloseBrace (node : ASTNode) (message : string) : Report :=
  {| report_node := node;
     report_loc := Some {| line := line (end_ (node_loc node));
                           column := column (end_ (node_loc node)) - 1 |};
     report_message := message |}.

(** Checks the given BlockStatement node to be padded if the block is not
    empty.  [reports] is what [context.report] has received so far; the
    result is what it has received afterwards. *)
Definition checkPadding (fuel : nat) (node : ASTNode) (reports : list Report)
  : Completion (list Report) :=
  blockHasTopPadding ← isBlockTopPadded fuel node;
  blockHasBottomPadding ← isBlockBottomPadded fuel node;
  if requirePadding then
    let reports :=
      if negb blockHasTopPadding
      then reports ++ [reportNode node ALWAYS_MESSAGE] else reports in
    let reports :=
      if negb blockHasBottomPadding
      then reports ++ [reportCloseBrace node ALWAYS_MESSAGE] else reports in
    Normal reports
  else
    let reports :=
      if blockHasTopPadding
      then reports ++ [reportNode node NEVER_MESSAGE] else reports in
    let reports :=
      if blockHasBottomPadding
      then reports ++ [reportCloseBrace node NEVER_MESSAGE] else reports in
    Normal reports.

(** The listeners the rule returns. *)
Definition SwitchStatement (fuel : nat) (node : ASTNode)
    (reports : list Report) : Completion (list Report) :=
  if bool_decide (length (node_cases node) = O) then Normal reports
  else checkPadding fuel node reports.

Definition BlockStatement (fuel : nat) (node : ASTNode)
    (reports : list Report) : Completion (list Report) :=
  if bool_decide (length (node_body node) = O) then Normal reports
  else checkPadding fuel node reports.

(** Modelled from the spec: the traversal engine (outside [lib/rules])
    calls, for each node, the listener registered under the node's type,
    and nothing for a type that has none. *)
Definition visit (fuel : nat) (node : ASTNode) (reports : list Report)
  : Completion (list Report) :=
  if bool_decide (node_type node = "SwitchStatement")
  then SwitchStatement fuel node reports
  else if bool_decide (node_type node = "BlockStatement")
  then BlockStatement fuel node reports
  else Normal reports.

End Rule.

(** ** Well-formed input

    What the parser guarantees about the token sequence and about a node
    with a non-empty body.  Both are boolean, so that they can be computed
    on a concrete program. *)

(** The tokens are non-empty, lie in source order and do not overlap. *)
Fixpoint orderedFrom (offset : Z) (tokens : list Token) : bool :=
  match tokens with
  | [] => true
  | t :: tokens' =>
      (offset <=? (tok_range t).1) && ((tok_range t).1 <? (tok_range t).2)
      && orderedFrom (tok_range t).2 tokens'
  end.

Definition wellOrdered (sourceCode : SourceCode) : bool :=
  orderedFrom 0 (tokensAndComments sourceCode).

#[global] Instance Position_eq_dec : EqDecision Position.
Proof. solve_decision. Defined.

(** The first statement of a block, the first case of a switch. *)
Definition firstChild (node : ASTNode) : option ASTNode :=
  if bool_decide (node_type node = "SwitchStatement")
  then node_cases node !! O
  else node_body node !! O.

Definition codeTokenAt (sourceCode : SourceCode) (offset : Z) : bool :=
  existsb (λ t, negb (isComment t) && ((tok_range t).1 =? offset))
          (tokensAndComments sourceCode).

Definition codeTokenBefore (sourceCode : SourceCode) (offset : Z) : bool :=
  existsb (λ t, negb (isComment t) && ((tok_range t).2 <=? offset))
          (tokensAndComments sourceCode).

(** Some code token ends where the node ends, at the same line and column;
    no other token ends there. *)
Definition closedByToken (sourceCode : SourceCode) (node : ASTNode) : bool :=
  existsb (λ t, negb (isComment t) && ((tok_range t).2 =? (node_range node).2))
          (tokensAndComments sourceCode)
  && forallb (λ t, negb ((tok_range t).2 =? (node_range node).2)
                   || bool_decide (end_ (tok_loc t) = end_ (node_loc node)))
             (tokensAndComments sourceCode).

(** A node with a non-empty body, as the parser places it on the tokens:
    the first child begins with a code token, after the node's opening
    delimiter and before the node's end; a block begins with a code token
    (its brace), the first case of a switch has a code token before it; the
    node ends with a code token. *)
Definition wellPlaced (sourceCode : SourceCode) (node : ASTNode) : bool :=
  match firstChild node with
  | None => false
  | Some child =>
      codeTokenAt sourceCode (node_range child).1
      && ((node_range child).1 <? (node_range node).2)
      && closedByToken sourceCode node
      && (if bool_decide (node_type node = "SwitchStatement")
          then codeTokenBefore sourceCode (node_range child).1
          else codeTokenAt sourceCode (node_range node).1
               && ((node_range node).1 <? (node_range child).1))
  end.

(** ** The analysis in the words of its specification *)

(** Walking forward from the token at index [i], skipping every comment
    whose start line is [openLine]: the first token reached, with the number
    of tokens skipped. *)
Definition firstContentAfter (stream : list Token) (i : nat) (openLine : Z)
  : option (nat * Token) :=
  list_find (λ t, ¬ (isComment t = true ∧ line (start (tok_loc t)) = openLine))
            (drop (S i) stream).

(** Walking backward from the token at index [j], skipping every comment
    whose end line is [closeLine]. *)
Definition lastContentBefore (stream : list Token) (j : nat) (closeLine : Z)
  : option (nat * Token) :=
  list_find (λ t, ¬ (isComment t = true ∧ line (end_ (tok_loc t)) = closeLine))
            (reverse (take j stream)).

(** The token immediately before the source offset [offset] in the
    token-and-comment sequence: the one that stands just before the first
    token starting at or after [offset], comment or not. *)
Definition streamTokenBefore (stream : list Token) (offset : Z)
  : option Token :=
  k ← fst <$> list_find (λ t, offset ≤ (tok_range t).1) stream;
  match k with
  | O => None
  | S k' => stream !! k'
  end.

(** Whether the edge is reported, given what the analysis found. *)
Definition violates (requirePadding padded : bool) : bool :=
  if requirePadding then negb padded else padded.

(** The message of the configured policy. *)
Definition policyMessage (requirePadding : bool) : string :=
  if requirePadding then "Block must be padded by blank lines."
  else "Block must not be padded by blank lines.".

(** The reports for one node whose top and bottom padding are [top] and
    [bottom]: the top edge first, then the bottom edge. *)
Definition emitted (requirePadding : bool) (node : ASTNode)
    (top bottom : bool) : list Report :=
  (if violates requirePadding top
   then [reportNode node (policyMessage requirePadding)] else [])
  ++ (if violates requirePadding bottom
      then [reportCloseBrace node (policyMessage requirePadding)] else []).

(** The opening delimiter [openBrace] of [node] stands at index [i] of the
    token-and-comment sequence and its closing token [closeBrace] at index
    [j], further on. *)
Record Delimited (context : RuleContext) (node : ASTNode)
    (openBrace closeBrace : Token) (i j : nat) : Prop := {
  delimited_open : getOpenBrace context node = Normal (Some openBrace);
  delimited_close : getLastToken (sourceCode context) node = Some closeBrace;
  delimited_open_at :
    tokensAndComments (sourceCode context) !! i = Some openBrace;
  delimited_close_at :
    tokensAndComments (sourceCode context) !! j = Some closeBrace;
  delimited_open_code : isComment openBrace = false;
  delimited_close_code : isComment closeBrace = false;
  delimited_lt : (i < j)%nat;
  delimited_end : end_ (tok_loc closeBrace) = end_ (node_loc node)
}.

(** The lines of the tokens follow the source as well: no token ends
    before it starts, and none starts before the one before it has
    ended. *)
Fixpoint linesFrom (l : Z) (tokens : list Token) : bool :=
  match tokens with
  | [] => true
  | t :: tokens' =>
      (l <=? line (start (tok_loc t)))
      && (line (start (tok_loc t)) <=? line (end_ (tok_loc t)))
      && linesFrom (line (end_ (tok_loc t))) tokens'
  end.

Definition linesOrdered (sourceCode : SourceCode) : bool :=
  linesFrom 0 (tokensAndComments sourceCode).

(** ** Sample programs *)

Module Samples.

Definition tok (type : string) (l1 c1 l2 c2 r1 r2 : Z) : Token :=
  {| tok_type := type;
     tok_loc := {| start := {| line := l1; column := c1 |};
                   end_ := {| line := l2; column := c2 |} |};
     tok_range := (r1, r2) |}.

Definition node (type : string) (l1 c1 l2 c2 r1 r2 : Z)
    (body cases : list ASTNode) : ASTNode :=
  {| node_type := type;
     node_loc := {| start := {| line := l1; column := c1 |};
                    end_ := {| line := l2; column := c2 |} |};
     node_range := (r1, r2);
     node_body := body;
     node_cases := cases |}.

Definition always (stream : list Token) : RuleContext :=
  {| options := []; getSourceCode := {| tokensAndComments := stream |} |}.

Definition never (stream : list Token) : RuleContext :=
  {| options := ["never"];
     getSourceCode := {| tokensAndComments := stream |} |}.

(** [{\n    foo();\n}] *)
Definition tight_tokens : list Token :=
  [ tok "Punctuator" 1 0 1 1 0 1;
    tok "Identifier" 2 4 2 7 6 9;
    tok "Punctuator" 2 7 2 8 9 10;
    tok "Punctuator" 2 8 2 9 10 11;
    tok "Punctuator" 2 9 2 10 11 12;
    tok "Punctuator" 3 0 3 1 13 14 ].
Definition tight_block : ASTNode :=
  node "BlockStatement" 1 0 3 1 0 14
       [node "ExpressionStatement" 2 4 2 10 6 12 [] []] [].

(** [{\n\n    foo();\n\n}] *)
Definition padded_tokens : list Token :=
  [ tok "Punctuator" 1 0 1 1 0 1;
    tok "Identifier" 3 4 3 7 7 10;
    tok "Punctuator" 3 7 3 8 10 11;
    tok "Punctuator" 3 8 3 9 11 12;
    tok "Punctuator" 3 9 3 10 12 13;
    tok "Punctuator" 5 0 5 1 15 16 ].
Definition padded_block : ASTNode :=
  node "BlockStatement" 1 0 5 1 0 16
       [node "ExpressionStatement" 3 4 3 10 7 13 [] []] [].

(** [{\n    // comment\n    foo();\n}] *)
Definition commented_tokens : list Token :=
  [ tok "Punctuator" 1 0 1 1 0 1;
    tok "Line" 2 4 2 14 6 16;
    tok "Identifier" 3 4 3 7 21 24;
    tok "Punctuator" 3 7 3 8 24 25;
    tok "Punctuator" 3 8 3 9 25 26;
    tok "Punctuator" 3 9 3 10 26 27;
    tok "Punctuator" 4 0 4 1 28 29 ].
Definition commented_block : ASTNode :=
  node "BlockStatement" 1 0 4 1 0 29
       [node "ExpressionStatement" 3 4 3 10 21 27 [] []] [].

(** [switch (x) {\n\n    case 1: break;\n\n}] *)
Definition switch_tokens : list Token :=
  [ tok "Keyword" 1 0 1 6 0 6;
    tok "Punctuator" 1 7 1 8 7 8;
    tok "Identifier" 1 8 1 9 8 9;
    tok "Punctuator" 1 9 1 10 9 10;
    tok "Punctuator" 1 11 1 12 11 12;
    tok "Keyword" 3 4 3 8 18 22;
    tok "Numeric" 3 9 3 10 23 24;
    tok "Punctuator" 3 10 3 11 24 25;
    tok "Keyword" 3 12 3 17 26 31;
    tok "Punctuator" 3 17 3 18 31 32;
    tok "Punctuator" 5 0 5 1 34 35 ].
Definition switch_node : ASTNode :=
  node "SwitchStatement" 1 0 5 1 0 35 []
       [node "SwitchCase" 3 4 3 18 18 32 [] []].

(** [switch (x) { /* a */\n    case 1: break;\n}]: a comment stands
    between the brace and the first case. *)
Definition switch_comment_tokens : list Token :=
  [ tok "Keyword" 1 0 1 6 0 6;
    tok "Punctuator" 1 7 1 8 7 8;
    tok "Identifier" 1 8 1 9 8 9;
    tok "Punctuator" 1 9 1 10 9 10;
    tok "Punctuator" 1 11 1 12 11 12;
    tok "Block" 1 13 1 20 13 20;
    tok "Keyword" 2 4 2 8 25 29;
    tok "Numeric" 2 9 2 10 30 31;
    tok "Punctuator" 2 10 2 11 31 32;
    tok "Keyword" 2 12 2 17 33 38;
    tok "Punctuator" 2 17 2 18 38 39;
    tok "Punctuator" 3 0 3 1 40 41 ].
Definition switch_comment_node : ASTNode :=
  node "SwitchStatement" 1 0 3 1 0 41 []
       [node "SwitchCase" 2 4 2 18 25 39 [] []].

(** [{}] and [switch (x) {}] *)
Definition empty_block : ASTNode := node "BlockStatement" 1 0 1 2 0 2 [] [].
Definition empty_tokens : list Token :=
  [ tok "Punctuator" 1 0 1 1 0 1; tok "Punctuator" 1 1 1 2 1 2 ].
Definition empty_switch : ASTNode :=
  node "SwitchStatement" 1 0 1 13 0 13 [] [].

End Samples.

Module MoreSamples.

Import Samples.

(** [switch (x) {\n    case 1: break;\n}], with room for a comment after
    the brace. *)
Definition switch_plain_tokens : list Token :=
  [ tok "Keyword" 1 0 1 6 0 6;
    tok "Punctuator" 1 7 1 8 7 8;
    tok "Identifier" 1 8 1 9 8 9;
    tok "Punctuator" 1 9 1 10 9 10;
    tok "Punctuator" 1 11 1 12 11 12;
    tok "Keyword" 2 4 2 8 25 29;
    tok "Numeric" 2 9 2 10 30 31;
    tok "Punctuator" 2 10 2 11 31 32;
    tok "Keyword" 2 12 2 17 33 38;
    tok "Punctuator" 2 17 2 18 38 39;
    tok "Punctuator" 3 0 3 1 40 41 ].

(** [{\n\n    foo();\n\n        }] and the same with a comment before the
    closing brace, [{\n\n    foo();\n\n/* a */ }]. *)
Definition trailing_plain_tokens : list Token :=
  [ tok "Punctuator" 1 0 1 1 0 1;
    tok "Identifier" 3 4 3 7 7 10;
    tok "Punctuator" 3 7 3 8 10 11;
    tok "Punctuator" 3 8 3 9 11 12;
    tok "Punctuator" 3 9 3 10 12 13;
    tok "Punctuator" 5 8 5 9 23 24 ].
Definition trailing_comment_tokens : list Token :=
  [ tok "Punctuator" 1 0 1 1 0 1;
    tok "Identifier" 3 4 3 7 7 10;
    tok "Punctuator" 3 7 3 8 10 11;
    tok "Punctuator" 3 8 3 9 11 12;
    tok "Punctuator" 3 9 3 10 12 13;
    tok "Block" 5 0 5 7 15 22;
    tok "Punctuator" 5 8 5 9 23 24 ].
Definition trailing_block : ASTNode :=
  node "BlockStatement" 1 0 5 9 0 24
       [node "ExpressionStatement" 3 4 3 10 7 13 [] []] [].

(** A block whose brace is followed by a comment only. *)
Definition unclosed_tokens : list Token :=
  [ tok "Punctuator" 1 0 1 1 0 1; tok "Line" 1 2 1 6 2 6 ].
Definition unclosed_block : ASTNode :=
  node "BlockStatement" 1 0 1 6 0 6
       [node "EmptyStatement" 1 6 1 6 6 6 [] []] [].


(** [{ foo(); }] on one line, alone and among other tokens. *)
Definition oneline_tokens : list Token :=
  [ tok "Punctuator" 1 3 1 4 3 4;
    tok "Identifier" 1 5 1 8 5 8;
    tok "Punctuator" 1 8 1 9 8 9;
    tok "Punctuator" 1 9 1 10 9 10;
    tok "Punctuator" 1 10 1 11 10 11;
    tok "Punctuator" 1 12 1 13 12 13 ].
Definition oneline_among_tokens : list Token :=
  [ tok "Identifier" 1 0 1 1 0 1; tok "Punctuator" 1 1 1 2 1 2 ]
  ++ oneline_tokens ++ [ tok "Identifier" 1 14 1 15 14 15 ].
Definition oneline_block : ASTNode :=
  node "BlockStatement" 1 3 1 13 3 13
       [node "ExpressionStatement" 1 5 1 11 5 11 [] []] [].

End MoreSamples.

(** ** Ordered token sequences *)

Section Ordered.

Implicit Types (tokens : list Token) (t u : Token) (i j : nat).

Lemma orderedFrom_weaken tokens (p q : Z) :
  q ≤ p → orderedFrom p tokens = true → orderedFrom q tokens = true.
Proof.
  destruct tokens as [|t tokens]; simpl; [done|].
  intros Hq. rewrite !andb_true_iff, !Z.leb_le. intuition lia.
Qed.

Lemma orderedFrom_lookup tokens (p : Z) i t :
  orderedFrom p tokens = true → tokens !! i = Some t →
  p ≤ (tok_range t).1 ∧ (tok_range t).1 < (tok_range t).2.
Proof.
  revert p i. induction tokens as [|a tokens IH]; intros p i; [done|].
  simpl. rewrite !andb_true_iff, Z.leb_le, Z.ltb_lt.
  intros [[Hp Ha] Hrest]. destruct i as [|i]; simpl.
  - intros [= <-]. done.
  - intros Hi. destruct (IH _ _ Hrest Hi). lia.
Qed.

Lemma orderedFrom_lt tokens (p : Z) i j t u :
  orderedFrom p tokens = true →
  tokens !! i = Some t → tokens !! j = Some u → (i < j)%nat →
  (tok_range t).2 ≤ (tok_range u).1.
Proof.
  revert p i j. induction tokens as [|a tokens IH]; intros p i j; [done|].
  simpl. rewrite !andb_true_iff. intros [_ Hrest] Hi Hj Hlt.
  destruct j as [|j]; [lia|]. destruct i as [|i]; simpl in *.
  - injection Hi as <-. by destruct (orderedFrom_lookup _ _ _ _ Hrest Hj).
  - eapply (IH _ i j); eauto with lia.
Qed.

Lemma orderedFrom_filter (P : Token → Prop) `{!∀ t, Decision (P t)}
    tokens (p : Z) :
  orderedFrom p tokens = true → orderedFrom p (filter P tokens) = true.
Proof.
  revert p. induction tokens as [|a tokens IH]; intros p; [done|].
  simpl. rewrite !andb_true_iff, Z.leb_le, Z.ltb_lt.
  intros [[Hp Ha] Hrest]. rewrite filter_cons. case_decide.
  - simpl. rewrite !andb_true_iff, Z.leb_le, Z.ltb_lt. auto.
  - apply IH. eapply orderedFrom_weaken; [|done]. lia.
Qed.

(** In an ordered sequence the ranges tell the indices apart. *)
Lemma ordered_index_le tokens (p : Z) i j t u :
  orderedFrom p tokens = true →
  tokens !! i = Some t → tokens !! j = Some u →
  (tok_range t).1 < (tok_range u).2 → (i ≤ j)%nat.
Proof.
  intros Hord Hi Hj Hlt. destruct (decide (i ≤ j)%nat) as [|Hn]; [done|].
  assert ((tok_range u).2 ≤ (tok_range t).1)
    by (eapply orderedFrom_lt; eauto with lia).
  lia.
Qed.

Lemma ordered_index_lt tokens (p : Z) i j t u :
  orderedFrom p tokens = true →
  tokens !! i = Some t → tokens !! j = Some u →
  (tok_range t).1 < (tok_range u).1 → (i < j)%nat.
Proof.
  intros Hord Hi Hj Hlt.
  destruct (orderedFrom_lookup _ _ _ _ Hord Hj).
  assert (i ≤ j)%nat by (eapply ordered_index_le; eauto with lia).
  destruct (decide (i = j)) as [->|]; [|lia].
  rewrite Hi in Hj. injection Hj as ->. lia.
Qed.

Lemma starts_lookup tokens (p : Z) i t :
  orderedFrom p tokens = true → tokens !! i = Some t →
  TokenStore.starts tokens (tok_range t).1 = Some i.
Proof.
  intros Hord Hi. unfold TokenStore.starts.
  assert (list_find (λ u, (tok_range u).1 = (tok_range t).1) tokens
          = Some (i, t)) as ->; [|done].
  apply list_find_Some. split_and!; [done..|].
  intros j u Hj Hlt Heq.
  pose proof (orderedFrom_lt _ _ _ _ _ _ Hord Hj Hi Hlt).
  destruct (orderedFrom_lookup _ _ _ _ Hord Hj). lia.
Qed.

Lemma ends_lookup tokens (p : Z) i t :
  orderedFrom p tokens = true → tokens !! i = Some t →
  TokenStore.ends tokens (tok_range t).2 = Some i.
Proof.
  intros Hord Hi. unfold TokenStore.ends.
  assert (list_find (λ u, (tok_range u).2 = (tok_range t).2) tokens
          = Some (i, t)) as ->; [|done].
  apply list_find_Some. split_and!; [done..|].
  intros j u Hj Hlt Heq.
  pose proof (orderedFrom_lt _ _ _ _ _ _ Hord Hj Hi Hlt).
  destruct (orderedFrom_lookup _ _ _ _ Hord Hi). lia.
Qed.

(** On an ordered sequence the store moves by one index. *)
Lemma getTokenAfter_lookup tokens (p : Z) i t :
  orderedFrom p tokens = true → tokens !! i = Some t →
  TokenStore.getTokenAfter tokens t = tokens !! S i.
Proof.
  intros Hord Hi. unfold TokenStore.getTokenAfter, range, token_ranged.
  by erewrite ends_lookup.
Qed.

Lemma getTokenBefore_lookup tokens (p : Z) i t :
  orderedFrom p tokens = true → tokens !! i = Some t →
  TokenStore.getTokenBefore tokens t
  = match i with O => None | S j => tokens !! j end.
Proof.
  intros Hord Hi. unfold TokenStore.getTokenBefore, range, token_ranged.
  by erewrite starts_lookup.
Qed.

End Ordered.

(** ** The two walks against their specification *)

Section Walks.

Variable context : RuleContext.

Let stream : list Token := tokensAndComments (sourceCode context).

Hypothesis Hordered : wellOrdered (sourceCode context) = true.

Lemma getTokenOrCommentAfter_lookup i t :
  stream !! i = Some t →
  getTokenOrCommentAfter (sourceCode context) t = stream !! S i.
Proof. intros. by eapply getTokenAfter_lookup. Qed.

Lemma getTokenOrCommentBefore_lookup i t :
  stream !! i = Some t →
  getTokenOrCommentBefore (sourceCode context) t
  = match i with O => None | S j => stream !! j end.
Proof. intros. by eapply getTokenBefore_lookup. Qed.

(** The loop of [isBlockTopPadded] ends on the first token the
    specification reaches, and throws exactly when there is none. *)
Lemma skipLeadingComments_spec fuel blockStart i t :
  stream !! i = Some t → (length stream ≤ fuel + i)%nat →
  skipLeadingComments context fuel blockStart t
  = match firstContentAfter stream i blockStart with
    | Some (_, first) => Normal first
    | None => TypeError
    end.
Proof.
  revert i t. induction fuel as [|fuel IH]; intros i t Hi Hfuel.
  { apply lookup_lt_Some in Hi. simpl in Hfuel. lia. }
  simpl. rewrite (getTokenOrCommentAfter_lookup i t Hi).
  unfold firstContentAfter.
  destruct (stream !! S i) as [u|] eqn:Hu; simpl.
  - rewrite (drop_S _ _ _ Hu). simpl.
    destruct (isComment u) eqn:Hc; simpl.
    + destruct (decide (line (start (tok_loc u)) = blockStart)) as [Hl|Hl].
      * rewrite bool_decide_eq_true_2 by done.
        rewrite decide_False by (intros HP; apply HP; auto).
        rewrite (IH (S i) u Hu) by lia. unfold firstContentAfter.
        by destruct (list_find _ (drop (S (S i)) stream)) as [[? ?]|].
      * rewrite bool_decide_eq_false_2 by done.
        by rewrite decide_True by (intros [_ ?]; done).
    + done.
  - rewrite drop_ge; [done|]. by apply lookup_ge_None.
Qed.

(** The same for the loop of [isBlockBottomPadded]. *)
Lemma skipTrailingComments_spec fuel blockEnd j t :
  stream !! j = Some t → (j < fuel)%nat →
  skipTrailingComments context fuel blockEnd t
  = match lastContentBefore stream j blockEnd with
    | Some (_, last) => Normal last
    | None => TypeError
    end.
Proof.
  revert j t. induction fuel as [|fuel IH]; intros j t Hj Hfuel; [lia|].
  simpl. rewrite (getTokenOrCommentBefore_lookup j t Hj).
  unfold lastContentBefore. destruct j as [|j]; [done|].
  destruct (lookup_lt_is_Some_2 stream j) as [u Hu].
  { apply lookup_lt_Some in Hj. lia. }
  rewrite Hu, (take_S_r _ _ _ Hu), reverse_snoc. simpl.
  destruct (isComment u) eqn:Hc; simpl.
  - destruct (decide (line (end_ (tok_loc u)) = blockEnd)) as [Hl|Hl].
    + rewrite bool_decide_eq_true_2 by done.
      rewrite decide_False by (intros HP; apply HP; auto).
      rewrite (IH j u Hu) by lia. unfold lastContentBefore.
      by destruct (list_find _ (reverse (take j stream))) as [[? ?]|].
    + rewrite bool_decide_eq_false_2 by done.
      by rewrite decide_True by (intros [_ ?]; done).
  - done.
Qed.

(** A code token sits in the store of code tokens, and the store finds
    it by either end of its range. *)
Lemma code_token_index i t :
  stream !! i = Some t → isComment t = false →
  ∃ m, ast_tokens (sourceCode context) !! m = Some t.
Proof.
  intros Hi Hc. apply list_elem_of_lookup_1, list_elem_of_filter.
  split; [done|]. by eapply list_elem_of_lookup_2.
Qed.

Lemma ast_tokens_lookup m t :
  ast_tokens (sourceCode context) !! m = Some t →
  isComment t = false ∧ ∃ i, stream !! i = Some t.
Proof.
  intros Hm%list_elem_of_lookup_2%list_elem_of_filter.
  destruct Hm as [? Hin]. split; [done|]. by apply list_elem_of_lookup_1.
Qed.

Lemma ast_tokens_ordered :
  orderedFrom 0 (ast_tokens (sourceCode context)) = true.
Proof. by apply orderedFrom_filter. Qed.

Lemma getFirstToken_code `{Ranged A} (node : A) i t :
  stream !! i = Some t → isComment t = false →
  (tok_range t).1 = (range node).1 →
  getFirstToken (sourceCode context) node = Some t.
Proof.
  intros Hi Hc Hr. destruct (code_token_index i t Hi Hc) as [m Hm].
  unfold getFirstToken, TokenStore.getFirstToken. rewrite <- Hr.
  by rewrite (starts_lookup _ _ _ _ ast_tokens_ordered Hm).
Qed.

Lemma getLastToken_code `{Ranged A} (node : A) j t :
  stream !! j = Some t → isComment t = false →
  (tok_range t).2 = (range node).2 →
  getLastToken (sourceCode context) node = Some t.
Proof.
  intros Hj Hc Hr. destruct (code_token_index j t Hj Hc) as [m Hm].
  unfold getLastToken, TokenStore.getLastToken. rewrite <- Hr.
  by rewrite (ends_lookup _ _ _ _ ast_tokens_ordered Hm).
Qed.

(** [getTokenBefore] gives the nearest code token on the left: whatever
    lies between it and the node is a comment. *)
Lemma getTokenBefore_code `{Ranged A} (node : A) k first :
  stream !! k = Some first → isComment first = false →
  (tok_range first).1 = (range node).1 →
  match getTokenBefore (sourceCode context) node with
  | Some t =>
      isComment t = false ∧
      ∃ i, stream !! i = Some t ∧ (i < k)%nat ∧
           ∀ j u, (i < j < k)%nat → stream !! j = Some u →
                  isComment u = true
  | None =>
      ∀ j u, (j < k)%nat → stream !! j = Some u → isComment u = true
  end.
Proof.
  intros Hk Hc Hr. destruct (code_token_index k first Hk Hc) as [m Hm].
  pose proof ast_tokens_ordered as Hcode.
  unfold getTokenBefore, TokenStore.getTokenBefore. rewrite <- Hr.
  rewrite (starts_lookup _ _ _ _ Hcode Hm). simpl.
  assert (∀ j u, (j < k)%nat → stream !! j = Some u →
                 isComment u = false →
                 ∃ q, ast_tokens (sourceCode context) !! q = Some u
                      ∧ (q < m)%nat) as Hleft.
  { intros j u Hlt Hj Hu. destruct (code_token_index j u Hj Hu) as [q Hq].
    exists q. split; [done|]. eapply ordered_index_lt; eauto.
    pose proof (orderedFrom_lt _ _ _ _ _ _ Hordered Hj Hk Hlt).
    destruct (orderedFrom_lookup _ _ _ _ Hordered Hj). lia. }
  destruct m as [|m].
  - intros j u Hlt Hj. destruct (isComment u) eqn:Hu; [done|].
    destruct (Hleft j u Hlt Hj Hu) as (?&_&?). lia.
  - destruct (lookup_lt_is_Some_2 (ast_tokens (sourceCode context)) m)
      as [t Ht].
    { apply lookup_lt_Some in Hm. lia. }
    rewrite Ht. destruct (ast_tokens_lookup m t Ht) as [Htc [i Hi]].
    split; [done|]. exists i.
    assert ((tok_range t).2 ≤ (tok_range first).1) as Hend
      by (eapply orderedFrom_lt; eauto with lia).
    destruct (orderedFrom_lookup _ _ _ _ Hordered Hi).
    split_and!; [done| |].
    + apply (ordered_index_lt stream 0 i k t first Hordered Hi Hk). lia.
    + intros j u [Hij Hjk] Hj. destruct (isComment u) eqn:Hu; [done|].
      destruct (Hleft j u Hjk Hj Hu) as (q&Hq&Hqm).
      pose proof (orderedFrom_lt _ _ _ _ _ _ Hordered Hi Hj Hij).
      assert (m < q)%nat; [|lia].
      eapply ordered_index_lt; eauto.
      destruct (orderedFrom_lookup _ _ _ _ Hordered Hj). lia.
Qed.

End Walks.

(** ** A well-placed node and its two delimiters *)

Section Placement.

Variable context : RuleContext.

Let stream : list Token := tokensAndComments (sourceCode context).

Hypothesis Hordered : wellOrdered (sourceCode context) = true.

Lemma codeTokenAt_inv (offset : Z) :
  codeTokenAt (sourceCode context) offset = true →
  ∃ i t, stream !! i = Some t ∧ isComment t = false
         ∧ (tok_range t).1 = offset.
Proof.
  unfold codeTokenAt. intros (t&Hin&Ht)%existsb_exists.
  apply list_elem_of_In, list_elem_of_lookup_1 in Hin as [i Hi].
  apply andb_true_iff in Ht as [Hc%negb_true_iff Hr%Z.eqb_eq]. eauto.
Qed.

Lemma codeTokenBefore_inv (offset : Z) :
  codeTokenBefore (sourceCode context) offset = true →
  ∃ i t, stream !! i = Some t ∧ isComment t = false
         ∧ (tok_range t).2 ≤ offset.
Proof.
  unfold codeTokenBefore. intros (t&Hin&Ht)%existsb_exists.
  apply list_elem_of_In, list_elem_of_lookup_1 in Hin as [i Hi].
  apply andb_true_iff in Ht as [Hc%negb_true_iff Hr%Z.leb_le]. eauto.
Qed.

Lemma closedByToken_inv node :
  closedByToken (sourceCode context) node = true →
  ∃ j t, stream !! j = Some t ∧ isComment t = false
         ∧ (tok_range t).2 = (node_range node).2
         ∧ end_ (tok_loc t) = end_ (node_loc node).
Proof.
  unfold closedByToken. intros [Hex Hall]%andb_true_iff.
  apply existsb_exists in Hex as (t&Hin&Ht).
  apply andb_true_iff in Ht as [Hc%negb_true_iff Hr%Z.eqb_eq].
  pose proof (proj1 (forallb_forall _ _) Hall t Hin) as Hloc.
  apply list_elem_of_In, list_elem_of_lookup_1 in Hin as [j Hj].
  exists j, t. split_and!; [done..|].
  apply orb_true_iff in Hloc as [Hne|Heq].
  - apply negb_true_iff, Z.eqb_neq in Hne. done.
  - by apply bool_decide_eq_true in Heq.
Qed.

(** What [wellPlaced] checks gives the rule both delimiters. *)
Lemma wellPlaced_delimited node :
  wellPlaced (sourceCode context) node = true →
  ∃ openBrace closeBrace i j,
    Delimited context node openBrace closeBrace i j.
Proof.
  unfold wellPlaced. destruct (firstChild node) as [child|] eqn:Hchild;
    [|done].
  rewrite !andb_true_iff. intros [[[Hat Hin%Z.ltb_lt] Hclosed] Hopen].
  destruct (codeTokenAt_inv _ Hat) as (k&first&Hk&Hfirst&Hrange).
  destruct (closedByToken_inv _ Hclosed) as (j&close&Hj&Hclose&Hr&Hloc).
  assert (k ≤ j)%nat as Hkj.
  { apply (ordered_index_le stream 0 k j first close Hordered Hk Hj). lia. }
  pose proof (getLastToken_code context Hordered node j close
                Hj Hclose Hr) as Hlast.
  unfold firstChild in Hchild.
  destruct (bool_decide (node_type node = "SwitchStatement")) eqn:Htype.
  - destruct (codeTokenBefore_inv _ Hopen) as (q&w&Hq&Hw&Hwr).
    pose proof (getTokenBefore_code context Hordered child k first
                  Hk Hfirst Hrange) as Hbefore.
    destruct (getTokenBefore (sourceCode context) child) as [t|] eqn:Ht.
    + destruct Hbefore as (Htc&i&Hi&Hik&_).
      exists t, close, i, j. split; try done; [|lia].
      unfold getOpenBrace. rewrite Htype, Hchild.
      exact (f_equal Normal Ht).
    + assert (q < k)%nat as Hqk.
      { apply (ordered_index_lt stream 0 q k w first Hordered Hq Hk).
        destruct (orderedFrom_lookup _ _ _ _ Hordered Hq). lia. }
      rewrite (Hbefore q w Hqk Hq) in Hw. done.
  - apply andb_true_iff in Hopen as [Hbrace Hlt%Z.ltb_lt].
    destruct (codeTokenAt_inv _ Hbrace) as (i&t&Hi&Htc&Htr).
    assert (i < k)%nat as Hik.
    { apply (ordered_index_lt stream 0 i k t first Hordered Hi Hk). lia. }
    exists t, close, i, j. split; try done; [|lia].
    unfold getOpenBrace. rewrite Htype.
    by rewrite (getFirstToken_code context Hordered node i t).
Qed.

End Placement.

(** ** The analysis of a delimited node *)

Section Analysis.

Variable context : RuleContext.

Let stream : list Token := tokensAndComments (sourceCode context).

Hypothesis Hordered : wellOrdered (sourceCode context) = true.

Variables (node : ASTNode) (openBrace closeBrace : Token) (i j : nat).

Hypothesis Hdelimited : Delimited context node openBrace closeBrace i j.

Variable fuel : nat.

Hypothesis Hfuel : (length stream ≤ fuel)%nat.

(** The forward walk ends at or before the closing token. *)
Lemma top_walk :
  ∃ n first,
    firstContentAfter stream i (line (start (tok_loc openBrace)))
    = Some (n, first)
    ∧ (S i + n ≤ j)%nat
    ∧ skipLeadingComments context fuel (line (start (tok_loc openBrace)))
        openBrace = Normal first.
Proof.
  destruct Hdelimited as [_ _ Hi Hj _ Hclose Hlt _].
  set (blockStart := line (start (tok_loc openBrace))).
  assert (drop (S i) stream !! (j - S i)%nat = Some closeBrace) as Hsuffix.
  { rewrite lookup_drop. by replace (S i + (j - S i))%nat with j by lia. }
  destruct (list_find_elem_of
              (λ t, ¬ (isComment t = true
                       ∧ line (start (tok_loc t)) = blockStart))
              (drop (S i) stream) closeBrace) as [[n first] Hfind].
  { by eapply list_elem_of_lookup_2. }
  { rewrite Hclose. by intros [? _]. }
  exists n, first. split; [done|].
  pose proof Hfind as (_&_&Hmin)%list_find_Some. split.
  - destruct (decide (j - S i < n)%nat) as [Hlate|]; [|lia].
    destruct (Hmin _ _ Hsuffix Hlate). rewrite Hclose. by intros [? _].
  - rewrite (skipLeadingComments_spec context Hordered fuel blockStart i)
      by (done || fold stream; lia).
    fold stream. unfold firstContentAfter. by rewrite Hfind.
Qed.

(** The backward walk ends at or after the opening delimiter. *)
Lemma bottom_walk :
  ∃ n last,
    lastContentBefore stream j (line (end_ (tok_loc closeBrace)))
    = Some (n, last)
    ∧ (i + n < j)%nat
    ∧ skipTrailingComments context fuel (line (end_ (tok_loc closeBrace)))
        closeBrace = Normal last.
Proof.
  destruct Hdelimited as [_ _ Hi Hj Hopen _ Hlt _].
  set (blockEnd := line (end_ (tok_loc closeBrace))).
  assert (j < length stream)%nat as Hlen by by eapply lookup_lt_Some.
  assert (length (take j stream) = j) as Htake
    by (rewrite length_take; lia).
  assert (reverse (take j stream) !! (j - S i)%nat = Some openBrace)
    as Hprefix.
  { rewrite reverse_lookup by lia. rewrite Htake.
    replace (j - S (j - S i))%nat with i by lia.
    by rewrite lookup_take_lt. }
  destruct (list_find_elem_of
              (λ t, ¬ (isComment t = true
                       ∧ line (end_ (tok_loc t)) = blockEnd))
              (reverse (take j stream)) openBrace) as [[n last] Hfind].
  { by eapply list_elem_of_lookup_2. }
  { rewrite Hopen. by intros [? _]. }
  exists n, last. split; [done|].
  pose proof Hfind as (_&_&Hmin)%list_find_Some. split.
  - destruct (decide (j - S i < n)%nat) as [Hlate|]; [|lia].
    destruct (Hmin _ _ Hprefix Hlate). rewrite Hopen. by intros [? _].
  - rewrite (skipTrailingComments_spec context Hordered fuel blockEnd j)
      by (done || lia).
    fold stream. unfold lastContentBefore. by rewrite Hfind.
Qed.

Lemma isBlockTopPadded_delimited :
  ∃ n first,
    firstContentAfter stream i (line (start (tok_loc openBrace)))
    = Some (n, first)
    ∧ isBlockTopPadded context fuel node
      = Normal (bool_decide (line (start (tok_loc openBrace)) + 2
                             ≤ line (start (tok_loc first)))).
Proof.
  destruct top_walk as (n&first&Hfind&_&Hwalk).
  exists n, first. split; [done|].
  unfold isBlockTopPadded. rewrite (delimited_open _ _ _ _ _ _ Hdelimited).
  simpl. by rewrite Hwalk.
Qed.

Lemma isBlockBottomPadded_delimited :
  ∃ n last,
    lastContentBefore stream j (line (end_ (tok_loc closeBrace)))
    = Some (n, last)
    ∧ isBlockBottomPadded context fuel node
      = Normal (bool_decide (line (end_ (tok_loc last))
                             ≤ line (end_ (tok_loc closeBrace)) - 2)).
Proof.
  destruct bottom_walk as (n&last&Hfind&_&Hwalk).
  exists n, last. split; [done|].
  unfold isBlockBottomPadded.
  rewrite (delimited_close _ _ _ _ _ _ Hdelimited). simpl. by rewrite Hwalk.
Qed.

End Analysis.

(** ** Reporting *)

Section Reporting.

Variable context : RuleContext.

(** [checkPadding] appends the reports of the policy, and nothing else. *)
Lemma checkPadding_emitted fuel node reports top bottom :
  isBlockTopPadded context fuel node = Normal top →
  isBlockBottomPadded context fuel node = Normal bottom →
  checkPadding context fuel node reports
  = Normal (reports ++ emitted (requirePadding context) node top bottom).
Proof.
  intros Htop Hbottom. unfold checkPadding. rewrite Htop, Hbottom. simpl.
  unfold emitted, violates, policyMessage, ALWAYS_MESSAGE, NEVER_MESSAGE.
  destruct (requirePadding context), top, bottom; simpl;
    by rewrite <- ?app_assoc, ?app_nil_r.
Qed.

(** On a well-placed node both analyses return. *)
Lemma analysis_returns fuel node :
  wellOrdered (sourceCode context) = true →
  wellPlaced (sourceCode context) node = true →
  (length (tokensAndComments (sourceCode context)) ≤ fuel)%nat →
  ∃ top bottom,
    isBlockTopPadded context fuel node = Normal top
    ∧ isBlockBottomPadded context fuel node = Normal bottom.
Proof.
  intros Hordered Hplaced Hfuel.
  destruct (wellPlaced_delimited context Hordered node Hplaced)
    as (openBrace&closeBrace&i&j&Hdelimited).
  destruct (isBlockTopPadded_delimited context Hordered _ _ _ _ _
              Hdelimited fuel Hfuel) as (?&?&_&->).
  destruct (isBlockBottomPadded_delimited context Hordered _ _ _ _ _
              Hdelimited fuel Hfuel) as (?&?&_&->).
  eauto.
Qed.

Lemma emitted_top rp node top bottom message :
  reportNode node message ∈ emitted rp node top bottom ↔
  violates rp top = true ∧ message = policyMessage rp.
Proof.
  unfold emitted, reportNode, reportCloseBrace.
  destruct (violates rp top), (violates rp bottom); simpl;
    rewrite ?elem_of_cons, ?elem_of_nil;
    intuition (subst; auto; congruence).
Qed.

Lemma emitted_bottom rp node top bottom message :
  reportCloseBrace node message ∈ emitted rp node top bottom ↔
  violates rp bottom = true ∧ message = policyMessage rp.
Proof.
  unfold emitted, reportNode, reportCloseBrace.
  destruct (violates rp top), (violates rp bottom); simpl;
    rewrite ?elem_of_cons, ?elem_of_nil;
    intuition (subst; auto; congruence).
Qed.

End Reporting.

(** ** Properties of the padding analysis *)

Section Padding.

Variable context : RuleContext.

Let stream : list Token := tokensAndComments (sourceCode context).

(** C1.  For a non-empty block or switch, [isBlockTopPadded] returns, and
    it returns [true] exactly when the first token reached by walking
    forward from the opening delimiter, skipping every comment that starts
    on the delimiter's line, starts at least two lines below the
    delimiter. *)
Theorem isBlockTopPadded_iff fuel node :
  wellOrdered (sourceCode context) = true →
  wellPlaced (sourceCode context) node = true →
  (length stream ≤ fuel)%nat →
  ∃ openBrace i,
    getOpenBrace context node = Normal (Some openBrace)
    ∧ stream !! i = Some openBrace
    ∧ (∃ b, isBlockTopPadded context fuel node = Normal b)
    ∧ (isBlockTopPadded context fuel node = Normal true ↔
       ∃ n first,
         firstContentAfter stream i (line (start (tok_loc openBrace)))
         = Some (n, first)
         ∧ line (start (tok_loc openBrace)) + 2
           ≤ line (start (tok_loc first))).
Proof.
  intros Hordered Hplaced Hfuel.
  destruct (wellPlaced_delimited context Hordered node Hplaced)
    as (openBrace&closeBrace&i&j&Hdelimited).
  destruct (isBlockTopPadded_delimited context Hordered _ _ _ _ _
              Hdelimited fuel Hfuel) as (n&first&Hfind&Hresult).
  exists openBrace, i. fold stream in Hfind.
  split_and!; [by destruct Hdelimited..|by eauto|].
  rewrite Hresult, Hfind. split.
  - intros [= Hb]. exists n, first. split; [done|].
    by apply bool_decide_eq_true in Hb.
  - intros (?&?&[= <- <-]&Hle). by rewrite bool_decide_eq_true_2.
Qed.

(** C2.  For a non-empty block or switch, [isBlockBottomPadded] returns,
    and it returns [true] exactly when the token reached by walking
    backward from the node's last token, skipping every comment that ends
    on that token's end line, ends at least two lines above it. *)
Theorem isBlockBottomPadded_iff fuel node :
  wellOrdered (sourceCode context) = true →
  wellPlaced (sourceCode context) node = true →
  (length stream ≤ fuel)%nat →
  ∃ closeBrace j,
    getLastToken (sourceCode context) node = Some closeBrace
    ∧ stream !! j = Some closeBrace
    ∧ (∃ b, isBlockBottomPadded context fuel node = Normal b)
    ∧ (isBlockBottomPadded context fuel node = Normal true ↔
       ∃ n last,
         lastContentBefore stream j (line (end_ (tok_loc closeBrace)))
         = Some (n, last)
         ∧ line (end_ (tok_loc last))
           ≤ line (end_ (tok_loc closeBrace)) - 2).
Proof.
  intros Hordered Hplaced Hfuel.
  destruct (wellPlaced_delimited context Hordered node Hplaced)
    as (openBrace&closeBrace&i&j&Hdelimited).
  destruct (isBlockBottomPadded_delimited context Hordered _ _ _ _ _
              Hdelimited fuel Hfuel) as (n&last&Hfind&Hresult).
  exists closeBrace, j. fold stream in Hfind.
  split_and!; [by destruct Hdelimited..|by eauto|].
  rewrite Hresult, Hfind. split.
  - intros [= Hb]. exists n, last. split; [done|].
    by apply bool_decide_eq_true in Hb.
  - intros (?&?&[= <- <-]&Hle). by rewrite bool_decide_eq_true_2.
Qed.

(** C9.  For a non-empty block or switch both walks end inside the node:
    the forward walk returns a token that stands after the opening
    delimiter and at or before the closing token, the backward walk a
    token that stands before the closing token and at or after the opening
    delimiter; neither asks the token store for a token it does not have,
    so neither analysis throws. *)
Theorem walks_stay_inside fuel node :
  wellOrdered (sourceCode context) = true →
  wellPlaced (sourceCode context) node = true →
  (length stream ≤ fuel)%nat →
  ∃ openBrace closeBrace i j,
    Delimited context node openBrace closeBrace i j
    ∧ (∃ k first,
         skipLeadingComments context fuel
           (line (start (tok_loc openBrace))) openBrace = Normal first
         ∧ stream !! k = Some first ∧ (i < k ≤ j)%nat)
    ∧ (∃ k last,
         skipTrailingComments context fuel
           (line (end_ (tok_loc closeBrace))) closeBrace = Normal last
         ∧ stream !! k = Some last ∧ (i ≤ k < j)%nat)
    ∧ (∃ top, isBlockTopPadded context fuel node = Normal top)
    ∧ (∃ bottom, isBlockBottomPadded context fuel node = Normal bottom).
Proof.
  intros Hordered Hplaced Hfuel.
  destruct (wellPlaced_delimited context Hordered node Hplaced)
    as (openBrace&closeBrace&i&j&Hdelimited).
  exists openBrace, closeBrace, i, j. split; [done|].
  destruct (top_walk context Hordered _ _ _ _ _ Hdelimited fuel Hfuel)
    as (n&first&Hfirst&Hn&Hforward).
  destruct (bottom_walk context Hordered _ _ _ _ _ Hdelimited fuel Hfuel)
    as (m&last&Hlast&Hm&Hbackward).
  split_and!.
  - exists (S i + n)%nat, first. split_and!; [done| |lia..].
    apply list_find_Some in Hfirst as (Hat&_&_).
    by rewrite lookup_drop in Hat.
  - exists (j - S m)%nat, last. split_and!; [done| |lia..].
    apply list_find_Some in Hlast as (Hat&_&_).
    apply reverse_lookup_Some in Hat as [Hat Hlen].
    pose proof (lookup_lt_Some _ _ _
                  (delimited_close_at _ _ _ _ _ _ Hdelimited)) as Hj.
    rewrite length_take_le in Hat, Hlen by lia.
    by apply lookup_take_Some in Hat as [Hat _].
  - destruct (isBlockTopPadded_delimited context Hordered _ _ _ _ _
                Hdelimited fuel Hfuel) as (?&?&_&->). eauto.
  - destruct (isBlockBottomPadded_delimited context Hordered _ _ _ _ _
                Hdelimited fuel Hfuel) as (?&?&_&->). eauto.
Qed.

End Padding.

(** ** Properties of the opening delimiter *)

Section Delimiter.

Variable context : RuleContext.

Let stream : list Token := tokensAndComments (sourceCode context).

(** C5, as amended.  For a block, [getOpenBrace] returns the block's first
    token: the code token that starts where the block starts.  For a
    switch with a first case, it returns the nearest code token before
    that case: whatever stands between the two in the token-and-comment
    sequence is a comment, and it returns [undefined] only when nothing
    but comments precede the case. *)
Theorem getOpenBrace_delimiter node :
  wellOrdered (sourceCode context) = true →
  (node_type node ≠ "SwitchStatement" →
   ∀ i t, stream !! i = Some t → isComment t = false →
          (tok_range t).1 = (node_range node).1 →
          getOpenBrace context node = Normal (Some t))
  ∧ (node_type node = "SwitchStatement" →
     ∀ case0 k first,
       node_cases node !! O = Some case0 →
       stream !! k = Some first → isComment first = false →
       (tok_range first).1 = (node_range case0).1 →
       ∃ result,
         getOpenBrace context node = Normal result
         ∧ match result with
           | Some t =>
               isComment t = false ∧
               ∃ i, stream !! i = Some t ∧ (i < k)%nat ∧
                    ∀ j u, (i < j < k)%nat → stream !! j = Some u →
                           isComment u = true
           | None =>
               ∀ j u, (j < k)%nat → stream !! j = Some u →
                      isComment u = true
           end).
Proof.
  intros Hordered. split.
  - intros Htype i t Hi Hcode Hrange. unfold getOpenBrace.
    rewrite bool_decide_eq_false_2 by done.
    by rewrite (getFirstToken_code context Hordered node i t).
  - intros Htype case0 k first Hcase Hk Hcode Hrange.
    exists (getTokenBefore (sourceCode context) case0). split.
    + unfold getOpenBrace. rewrite bool_decide_eq_true_2 by done.
      by rewrite Hcase.
    + by apply (getTokenBefore_code context Hordered case0 k first).
Qed.

End Delimiter.

(** ** Properties of the reports *)

Section Reports.

Variable context : RuleContext.

Let stream : list Token := tokensAndComments (sourceCode context).

(** C3.  For an analyzed non-empty node the top edge is reported exactly
    when padding is required and missing at the top, or forbidden and
    present there; likewise the bottom edge; every report carries the
    message of the policy, the same for both edges, and is the report of
    one of the two edges. *)
Theorem checkPadding_reports fuel node reports :
  wellOrdered (sourceCode context) = true →
  wellPlaced (sourceCode context) node = true →
  (length stream ≤ fuel)%nat →
  ∃ top bottom out,
    isBlockTopPadded context fuel node = Normal top
    ∧ isBlockBottomPadded context fuel node = Normal bottom
    ∧ checkPadding context fuel node reports = Normal (reports ++ out)
    ∧ ((∃ message, reportNode node message ∈ out) ↔
       (requirePadding context = true ∧ top = false)
       ∨ (requirePadding context = false ∧ top = true))
    ∧ ((∃ message, reportCloseBrace node message ∈ out) ↔
       (requirePadding context = true ∧ bottom = false)
       ∨ (requirePadding context = false ∧ bottom = true))
    ∧ (∀ r, r ∈ out →
         report_message r
         = (if requirePadding context
            then "Block must be padded by blank lines."
            else "Block must not be padded by blank lines.")
         ∧ (r = reportNode node (report_message r)
            ∨ r = reportCloseBrace node (report_message r))).
Proof.
  intros Hordered Hplaced Hfuel.
  destruct (analysis_returns context fuel node Hordered Hplaced Hfuel)
    as (top&bottom&Htop&Hbottom).
  exists top, bottom, (emitted (requirePadding context) node top bottom).
  split_and!; [done..|by apply checkPadding_emitted| | |].
  - split.
    + intros [message [Hv _]%emitted_top]. revert Hv. unfold violates.
      destruct (requirePadding context), top; simpl; auto; discriminate.
    + intros Hcase. exists (policyMessage (requirePadding context)).
      apply emitted_top. split; [|done]. unfold violates.
      destruct Hcase as [[-> ->]|[-> ->]]; done.
  - split.
    + intros [message [Hv _]%emitted_bottom]. revert Hv. unfold violates.
      destruct (requirePadding context), bottom; simpl; auto; discriminate.
    + intros Hcase. exists (policyMessage (requirePadding context)).
      apply emitted_bottom. split; [|done]. unfold violates.
      destruct Hcase as [[-> ->]|[-> ->]]; done.
  - intros r. unfold emitted.
    destruct (violates (requirePadding context) top),
      (violates (requirePadding context) bottom); simpl;
      rewrite ?elem_of_cons, ?elem_of_nil;
      intuition (subst; simpl; auto).
Qed.

(** C4.  For a block with no statement and for a switch with no case the
    visitor reports nothing, whatever the policy: it returns with the
    reports it was given. *)
Theorem empty_body_not_reported fuel node reports :
  (node_type node = "BlockStatement" ∧ node_body node = [])
  ∨ (node_type node = "SwitchStatement" ∧ node_cases node = []) →
  visit context fuel node reports = Normal reports.
Proof.
  unfold visit, BlockStatement, SwitchStatement.
  intros [[Htype Hempty]|[Htype Hempty]]; rewrite Htype, Hempty; done.
Qed.

(** C6.  An analyzed non-empty node gets zero, one or two reports.
    Whether its top edge is reported is a matter of the policy and of
    [isBlockTopPadded] alone: any other analyzed node, under the same
    policy and with the same [isBlockTopPadded], has its top edge reported
    as well or not either, whatever [isBlockBottomPadded] says of the
    two; and symmetrically for the bottom edge. *)
Theorem checkPadding_edges_independent fuel node reports :
  wellOrdered (sourceCode context) = true →
  wellPlaced (sourceCode context) node = true →
  (length stream ≤ fuel)%nat →
  ∃ out,
    checkPadding context fuel node reports = Normal (reports ++ out)
    ∧ (length out = 0 ∨ length out = 1 ∨ length out = 2)%nat
    ∧ ∀ context' fuel' node' reports' out',
        requirePadding context' = requirePadding context →
        checkPadding context' fuel' node' reports'
        = Normal (reports' ++ out') →
        (isBlockTopPadded context' fuel' node'
         = isBlockTopPadded context fuel node →
         ((∃ message, reportNode node message ∈ out) ↔
          (∃ message, reportNode node' message ∈ out')))
        ∧ (isBlockBottomPadded context' fuel' node'
           = isBlockBottomPadded context fuel node →
           ((∃ message, reportCloseBrace node message ∈ out) ↔
            (∃ message, reportCloseBrace node' message ∈ out'))).
Proof.
  intros Hordered Hplaced Hfuel.
  destruct (analysis_returns context fuel node Hordered Hplaced Hfuel)
    as (top&bottom&Htop&Hbottom).
  exists (emitted (requirePadding context) node top bottom).
  split_and!; [by apply checkPadding_emitted| |].
  { unfold emitted.
    destruct (violates (requirePadding context) top),
      (violates (requirePadding context) bottom); simpl; auto. }
  intros context' fuel' node' reports' out' Hpolicy Hcheck.
  assert (∃ top' bottom',
            isBlockTopPadded context' fuel' node' = Normal top'
            ∧ isBlockBottomPadded context' fuel' node' = Normal bottom')
    as (top'&bottom'&Htop'&Hbottom').
  { unfold checkPadding in Hcheck.
    destruct (isBlockTopPadded context' fuel' node'); [|done..].
    destruct (isBlockBottomPadded context' fuel' node'); [|done..].
    eauto. }
  rewrite (checkPadding_emitted context' fuel' node' reports' top' bottom'
             Htop' Hbottom') in Hcheck.
  injection Hcheck as Hout%app_inv_head. subst out'.
  rewrite Htop, Hbottom, Htop', Hbottom', Hpolicy. split.
  - intros [= ->]. split; intros [message [Hv _]%emitted_top];
      eexists; apply emitted_top; eauto.
  - intros [= ->]. split; intros [message [Hv _]%emitted_bottom];
      eexists; apply emitted_bottom; eauto.
Qed.

(** C7.  The reports of an analyzed non-empty node are those of its top
    edge followed by those of its bottom edge.  The top edge, when it
    violates the policy, gets one report: it carries no location of its own
    and is located at the start of the node.  The bottom edge, when it
    violates the policy, gets one report: it is located on the end line of
    the node's closing token, at that token's end column minus one.  An
    edge that does not violate the policy gets none. *)
Theorem report_locations fuel node reports :
  wellOrdered (sourceCode context) = true →
  wellPlaced (sourceCode context) node = true →
  (length stream ≤ fuel)%nat →
  ∃ top bottom closeBrace topReports bottomReports,
    isBlockTopPadded context fuel node = Normal top
    ∧ isBlockBottomPadded context fuel node = Normal bottom
    ∧ getLastToken (sourceCode context) node = Some closeBrace
    ∧ checkPadding context fuel node reports
      = Normal (reports ++ topReports ++ bottomReports)
    ∧ (violates (requirePadding context) top = false → topReports = [])
    ∧ (violates (requirePadding context) top = true →
       ∃ r, topReports = [r]
            ∧ report_node r = node
            ∧ report_loc r = None
            ∧ reportLocation r = start (node_loc node))
    ∧ (violates (requirePadding context) bottom = false →
       bottomReports = [])
    ∧ (violates (requirePadding context) bottom = true →
       ∃ r, bottomReports = [r]
            ∧ report_node r = node
            ∧ report_loc r
              = Some {| line := line (end_ (tok_loc closeBrace));
                        column := column (end_ (tok_loc closeBrace)) - 1 |}
            ∧ reportLocation r
              = {| line := line (end_ (tok_loc closeBrace));
                   column := column (end_ (tok_loc closeBrace)) - 1 |}).
Proof.
  intros Hordered Hplaced Hfuel.
  destruct (wellPlaced_delimited context Hordered node Hplaced)
    as (openBrace&closeBrace&i&j&Hdelimited).
  destruct (analysis_returns context fuel node Hordered Hplaced Hfuel)
    as (top&bottom&Htop&Hbottom).
  pose proof (delimited_end _ _ _ _ _ _ Hdelimited) as Hend.
  exists top, bottom, closeBrace,
    (if violates (requirePadding context) top
     then [reportNode node (policyMessage (requirePadding context))]
     else []),
    (if violates (requirePadding context) bottom
     then [reportCloseBrace node (policyMessage (requirePadding context))]
     else []).
  split_and!; [done..|by destruct Hdelimited| | | | |].
  - by rewrite (checkPadding_emitted context fuel node reports top bottom).
  - by intros ->.
  - intros ->. by eexists.
  - by intros ->.
  - intros ->. eexists. split_and!; [done..| |].
    + simpl. by rewrite Hend.
    + unfold reportLocation. simpl. by rewrite Hend.
Qed.

(** C8.  A block whose brace is on line 1 and is followed by a comment
    that starts on line 2: when padding is required the top edge is
    reported.  The comment is the first token reached, and it starts only
    one line below the brace. *)
Theorem comment_below_brace_reported fuel node reports openBrace comment i :
  wellOrdered (sourceCode context) = true →
  wellPlaced (sourceCode context) node = true →
  (length stream ≤ fuel)%nat →
  requirePadding context = true →
  node_type node = "BlockStatement" →
  stream !! i = Some openBrace → isComment openBrace = false →
  (tok_range openBrace).1 = (node_range node).1 →
  line (start (tok_loc openBrace)) = 1 →
  stream !! S i = Some comment → isComment comment = true →
  line (start (tok_loc comment)) = 2 →
  firstContentAfter stream i 1 = Some (O, comment)
  ∧ isBlockTopPadded context fuel node = Normal false
  ∧ ∃ out,
      visit context fuel node reports = Normal (reports ++ out)
      ∧ reportNode node "Block must be padded by blank lines." ∈ out.
Proof.
  intros Hordered Hplaced Hfuel Hpolicy Htype Hi Hcode Hrange Hline
    Hnext Hcomment Hline'.
  assert (firstContentAfter stream i 1 = Some (O, comment)) as Hfind.
  { unfold firstContentAfter. rewrite (drop_S _ _ _ Hnext). simpl.
    rewrite decide_True; [done|]. intros [_ ?]. lia. }
  assert (isBlockTopPadded context fuel node = Normal false) as Htop.
  { unfold isBlockTopPadded, getOpenBrace. rewrite Htype. simpl.
    rewrite (getFirstToken_code context Hordered node i openBrace)
      by done.
    simpl. rewrite Hline.
    rewrite (skipLeadingComments_spec context Hordered fuel 1 i)
      by (done || fold stream; lia).
    fold stream. rewrite Hfind. simpl. rewrite Hline'. done. }
  split_and!; [done..|].
  destruct (analysis_returns context fuel node Hordered Hplaced Hfuel)
    as (top&bottom&Htop'&Hbottom).
  rewrite Htop in Htop'. injection Htop' as <-.
  exists (emitted (requirePadding context) node false bottom). split.
  - unfold visit, BlockStatement. rewrite Htype. simpl.
    assert (node_body node ≠ []) as Hbody.
    { intros Hempty. unfold wellPlaced, firstChild in Hplaced.
      rewrite Htype, Hempty in Hplaced. done. }
    rewrite bool_decide_eq_false_2
      by (by destruct (node_body node)).
    by apply checkPadding_emitted.
  - rewrite Hpolicy. by apply emitted_top.
Qed.

(** C10.  When both edges of an analyzed non-empty node are reported, the
    report of the top edge comes first and that of the bottom edge
    second. *)
Theorem top_reported_before_bottom fuel node reports :
  wellOrdered (sourceCode context) = true →
  wellPlaced (sourceCode context) node = true →
  (length stream ≤ fuel)%nat →
  ∃ out,
    checkPadding context fuel node reports = Normal (reports ++ out)
    ∧ ∀ message message',
        reportNode node message ∈ out →
        reportCloseBrace node message' ∈ out →
        out = [reportNode node message; reportCloseBrace node message'].
Proof.
  intros Hordered Hplaced Hfuel.
  destruct (analysis_returns context fuel node Hordered Hplaced Hfuel)
    as (top&bottom&Htop&Hbottom).
  exists (emitted (requirePadding context) node top bottom).
  split; [by apply checkPadding_emitted|].
  intros message message' [Hv ->]%emitted_top [Hv' ->]%emitted_bottom.
  unfold emitted. by rewrite Hv, Hv'.
Qed.

End Reports.

(** ** The properties on the sample programs *)

Section OnSamples.

Import Samples.

(** The scenarios of the rule's documentation. *)
Example tight_block_always :
  visit (always tight_tokens) 6 tight_block []
  = Normal [reportNode tight_block ALWAYS_MESSAGE;
            reportCloseBrace tight_block ALWAYS_MESSAGE].
Proof. reflexivity. Qed.

Example padded_block_always :
  visit (always padded_tokens) 6 padded_block [] = Normal [].
Proof. reflexivity. Qed.

Example padded_block_never :
  visit (never padded_tokens) 6 padded_block []
  = Normal [reportNode padded_block NEVER_MESSAGE;
            reportCloseBrace padded_block NEVER_MESSAGE].
Proof. reflexivity. Qed.

Example padded_switch_always :
  visit (always switch_tokens) 11 switch_node [] = Normal [].
Proof. reflexivity. Qed.

(** C5, as stated, fails on [switch (x) { /* a */ ... }]: the token
    immediately before the first case in the token-and-comment sequence
    is the comment, and [getOpenBrace] returns the brace before it. *)
Lemma getOpenBrace_adjacent_counterexample :
  wellOrdered (sourceCode (always switch_comment_tokens)) = true
  ∧ wellPlaced (sourceCode (always switch_comment_tokens))
      switch_comment_node = true
  ∧ node_cases switch_comment_node !! O
    = Some (node "SwitchCase" 2 4 2 18 25 39 [] [])
  ∧ streamTokenBefore switch_comment_tokens 25
    = Some (tok "Block" 1 13 1 20 13 20)
  ∧ getOpenBrace (always switch_comment_tokens) switch_comment_node
    = Normal (Some (tok "Punctuator" 1 11 1 12 11 12))
  ∧ getOpenBrace (always switch_comment_tokens) switch_comment_node
    ≠ Normal (streamTokenBefore switch_comment_tokens 25).
Proof. split_and!; [reflexivity..|]. intros [=]. Qed.

Lemma isBlockTopPadded_iff_witness :
  ∃ openBrace i,
    getOpenBrace (always commented_tokens) commented_block
    = Normal (Some openBrace)
    ∧ commented_tokens !! i = Some openBrace
    ∧ (∃ b, isBlockTopPadded (always commented_tokens) 7 commented_block
            = Normal b)
    ∧ (isBlockTopPadded (always commented_tokens) 7 commented_block
       = Normal true ↔
       ∃ n first,
         firstContentAfter commented_tokens i
           (line (start (tok_loc openBrace))) = Some (n, first)
         ∧ line (start (tok_loc openBrace)) + 2
           ≤ line (start (tok_loc first))).
Proof.
  apply (isBlockTopPadded_iff (always commented_tokens) 7 commented_block);
    [reflexivity | reflexivity | simpl; lia].
Defined.

Lemma isBlockBottomPadded_iff_witness :
  ∃ closeBrace j,
    getLastToken (sourceCode (always padded_tokens)) padded_block
    = Some closeBrace
    ∧ padded_tokens !! j = Some closeBrace
    ∧ (∃ b, isBlockBottomPadded (always padded_tokens) 6 padded_block
            = Normal b)
    ∧ (isBlockBottomPadded (always padded_tokens) 6 padded_block
       = Normal true ↔
       ∃ n last,
         lastContentBefore padded_tokens j
           (line (end_ (tok_loc closeBrace))) = Some (n, last)
         ∧ line (end_ (tok_loc last))
           ≤ line (end_ (tok_loc closeBrace)) - 2).
Proof.
  apply (isBlockBottomPadded_iff (always padded_tokens) 6 padded_block);
    [reflexivity | reflexivity | simpl; lia].
Defined.

Lemma walks_stay_inside_witness :
  ∃ openBrace closeBrace i j,
    Delimited (always switch_comment_tokens) switch_comment_node
      openBrace closeBrace i j
    ∧ (∃ k first,
         skipLeadingComments (always switch_comment_tokens) 12
           (line (start (tok_loc openBrace))) openBrace = Normal first
         ∧ switch_comment_tokens !! k = Some first ∧ (i < k ≤ j)%nat)
    ∧ (∃ k last,
         skipTrailingComments (always switch_comment_tokens) 12
           (line (end_ (tok_loc closeBrace))) closeBrace = Normal last
         ∧ switch_comment_tokens !! k = Some last ∧ (i ≤ k < j)%nat)
    ∧ (∃ top, isBlockTopPadded (always switch_comment_tokens) 12
                switch_comment_node = Normal top)
    ∧ (∃ bottom, isBlockBottomPadded (always switch_comment_tokens) 12
                   switch_comment_node = Normal bottom).
Proof.
  apply (walks_stay_inside (always switch_comment_tokens) 12
           switch_comment_node);
    [reflexivity | reflexivity | simpl; lia].
Defined.

Lemma getOpenBrace_delimiter_witness :
  getOpenBrace (always tight_tokens) tight_block
  = Normal (Some (tok "Punctuator" 1 0 1 1 0 1))
  ∧ ∃ result,
      getOpenBrace (always switch_comment_tokens) switch_comment_node
      = Normal result
      ∧ match result with
        | Some t =>
            isComment t = false ∧
            ∃ i, switch_comment_tokens !! i = Some t ∧ (i < 6)%nat ∧
                 ∀ j u, (i < j < 6)%nat →
                        switch_comment_tokens !! j = Some u →
                        isComment u = true
        | None =>
            ∀ j u, (j < 6)%nat → switch_comment_tokens !! j = Some u →
                   isComment u = true
        end.
Proof.
  split.
  - apply (proj1 (getOpenBrace_delimiter (always tight_tokens) tight_block
                    eq_refl)) with (i := O);
      [intros [=] | reflexivity..].
  - apply (proj2 (getOpenBrace_delimiter (always switch_comment_tokens)
                    switch_comment_node eq_refl)
             eq_refl (node "SwitchCase" 2 4 2 18 25 39 [] []) 6%nat
             (tok "Keyword" 2 4 2 8 25 29));
      reflexivity.
Defined.

Lemma checkPadding_reports_witness :
  ∃ top bottom out,
    isBlockTopPadded (never padded_tokens) 6 padded_block = Normal top
    ∧ isBlockBottomPadded (never padded_tokens) 6 padded_block
      = Normal bottom
    ∧ checkPadding (never padded_tokens) 6 padded_block []
      = Normal ([] ++ out)
    ∧ ((∃ message, reportNode padded_block message ∈ out) ↔
       (requirePadding (never padded_tokens) = true ∧ top = false)
       ∨ (requirePadding (never padded_tokens) = false ∧ top = true))
    ∧ ((∃ message, reportCloseBrace padded_block message ∈ out) ↔
       (requirePadding (never padded_tokens) = true ∧ bottom = false)
       ∨ (requirePadding (never padded_tokens) = false ∧ bottom = true))
    ∧ (∀ r, r ∈ out →
         report_message r
         = (if requirePadding (never padded_tokens)
            then "Block must be padded by blank lines."
            else "Block must not be padded by blank lines.")
         ∧ (r = reportNode padded_block (report_message r)
            ∨ r = reportCloseBrace padded_block (report_message r))).
Proof.
  apply (checkPadding_reports (never padded_tokens) 6 padded_block []);
    [reflexivity | reflexivity | simpl; lia].
Defined.

Lemma empty_body_not_reported_witness :
  visit (always empty_tokens) 0 empty_block [] = Normal []
  ∧ visit (never empty_tokens) 0 empty_switch [] = Normal [].
Proof.
  split.
  - apply (empty_body_not_reported (always empty_tokens) 0 empty_block []).
    left. split; reflexivity.
  - apply (empty_body_not_reported (never empty_tokens) 0 empty_switch []).
    right. split; reflexivity.
Defined.

Lemma checkPadding_edges_independent_witness :
  ∃ out,
    checkPadding (always tight_tokens) 6 tight_block []
    = Normal ([] ++ out)
    ∧ (length out = 0 ∨ length out = 1 ∨ length out = 2)%nat
    ∧ ∀ context' fuel' node' reports' out',
        requirePadding context' = requirePadding (always tight_tokens) →
        checkPadding context' fuel' node' reports'
        = Normal (reports' ++ out') →
        (isBlockTopPadded context' fuel' node'
         = isBlockTopPadded (always tight_tokens) 6 tight_block →
         ((∃ message, reportNode tight_block message ∈ out) ↔
          (∃ message, reportNode node' message ∈ out')))
        ∧ (isBlockBottomPadded context' fuel' node'
           = isBlockBottomPadded (always tight_tokens) 6 tight_block →
           ((∃ message, reportCloseBrace tight_block message ∈ out) ↔
            (∃ message, reportCloseBrace node' message ∈ out'))).
Proof.
  apply (checkPadding_edges_independent (always tight_tokens) 6
           tight_block []);
    [reflexivity | reflexivity | simpl; lia].
Defined.

Lemma report_locations_witness :
  ∃ top bottom closeBrace topReports bottomReports,
    isBlockTopPadded (always tight_tokens) 6 tight_block = Normal top
    ∧ isBlockBottomPadded (always tight_tokens) 6 tight_block = Normal bottom
    ∧ getLastToken (sourceCode (always tight_tokens)) tight_block
      = Some closeBrace
    ∧ checkPadding (always tight_tokens) 6 tight_block []
      = Normal ([] ++ topReports ++ bottomReports)
    ∧ (violates (requirePadding (always tight_tokens)) top = false →
       topReports = [])
    ∧ (violates (requirePadding (always tight_tokens)) top = true →
       ∃ r, topReports = [r]
            ∧ report_node r = tight_block
            ∧ report_loc r = None
            ∧ reportLocation r = start (node_loc tight_block))
    ∧ (violates (requirePadding (always tight_tokens)) bottom = false →
       bottomReports = [])
    ∧ (violates (requirePadding (always tight_tokens)) bottom = true →
       ∃ r, bottomReports = [r]
            ∧ report_node r = tight_block
            ∧ report_loc r
              = Some {| line := line (end_ (tok_loc closeBrace));
                        column := column (end_ (tok_loc closeBrace)) - 1 |}
            ∧ reportLocation r
              = {| line := line (end_ (tok_loc closeBrace));
                   column := column (end_ (tok_loc closeBrace)) - 1 |}).
Proof.
  apply (report_locations (always tight_tokens) 6 tight_block []);
    [reflexivity | reflexivity | simpl; lia].
Defined.

Lemma comment_below_brace_reported_witness :
  firstContentAfter commented_tokens 0 1
  = Some (O, tok "Line" 2 4 2 14 6 16)
  ∧ isBlockTopPadded (always commented_tokens) 7 commented_block
    = Normal false
  ∧ ∃ out,
      visit (always commented_tokens) 7 commented_block []
      = Normal ([] ++ out)
      ∧ reportNode commented_block "Block must be padded by blank lines."
        ∈ out.
Proof.
  apply (comment_below_brace_reported (always commented_tokens) 7
           commented_block [] (tok "Punctuator" 1 0 1 1 0 1)
           (tok "Line" 2 4 2 14 6 16) 0);
    solve [reflexivity | simpl; lia].
Defined.

Lemma top_reported_before_bottom_witness :
  ∃ out,
    checkPadding (never padded_tokens) 6 padded_block []
    = Normal ([] ++ out)
    ∧ ∀ message message',
        reportNode padded_block message ∈ out →
        reportCloseBrace padded_block message' ∈ out →
        out = [reportNode padded_block message;
               reportCloseBrace padded_block message'].
Proof.
  apply (top_reported_before_bottom (never padded_tokens) 6
           padded_block []);
    [reflexivity | reflexivity | simpl; lia].
Defined.

End OnSamples.

(** ** Further properties of the rule *)

Section Visitor.

Variable context : RuleContext.

(** X1.  What a visit reports does not depend on what was reported before: the
    reports of a visit are those of the same visit started from nothing,
    put after the earlier ones; a visit that throws, throws all the same. *)
Theorem visit_frame fuel node reports :
  visit context fuel node reports
  = (out ← visit context fuel node []; Normal (reports ++ out)).
Proof.
  unfold visit, SwitchStatement, BlockStatement, checkPadding.
  repeat case_bool_decide; simpl; rewrite ?app_nil_r; try done;
    destruct (isBlockTopPadded context fuel node) as [top| |]; simpl;
    try done;
    destruct (isBlockBottomPadded context fuel node) as [bottom| |]; simpl;
    try done;
    destruct (requirePadding context), top, bottom; simpl;
    by rewrite <- ?app_assoc, ?app_nil_r.
Qed.

(** X2.  Whatever the node and the tokens, a visit that returns has kept the
    earlier reports, in order, and has added at most two: each of them on
    the visited node and with the message of the policy, the one of the top
    edge without a location of its own, the one of the bottom edge at the
    node's end line and end column minus one. *)
Theorem visit_appends fuel node reports result :
  visit context fuel node reports = Normal result →
  ∃ out,
    result = reports ++ out
    ∧ (length out ≤ 2)%nat
    ∧ ∀ r, r ∈ out →
        r = reportNode node (policyMessage (requirePadding context))
        ∨ r = reportCloseBrace node (policyMessage (requirePadding context)).
Proof.
  assert (∀ top bottom,
            (length (emitted (requirePadding context) node top bottom) ≤ 2)%nat
            ∧ ∀ r, r ∈ emitted (requirePadding context) node top bottom →
                r = reportNode node (policyMessage (requirePadding context))
                ∨ r = reportCloseBrace node
                        (policyMessage (requirePadding context)))
    as Hemitted.
  { intros top bottom. unfold emitted.
    destruct (violates (requirePadding context) top),
      (violates (requirePadding context) bottom); simpl;
      (split; [lia|]); intros r; rewrite ?elem_of_cons, ?elem_of_nil;
      intuition auto. }
  assert (checkPadding context fuel node reports = Normal result →
          ∃ out, result = reports ++ out ∧ (length out ≤ 2)%nat
                 ∧ ∀ r, r ∈ out →
                     r = reportNode node
                           (policyMessage (requirePadding context))
                     ∨ r = reportCloseBrace node
                             (policyMessage (requirePadding context)))
    as Hcheck.
  { intros Hresult.
    destruct (isBlockTopPadded context fuel node) as [top| |] eqn:Htop;
      try (unfold checkPadding in Hresult; rewrite Htop in Hresult; done).
    destruct (isBlockBottomPadded context fuel node) as [bottom| |]
      eqn:Hbottom;
      try (unfold checkPadding in Hresult;
           rewrite Htop, Hbottom in Hresult; done).
    rewrite (checkPadding_emitted context fuel node reports top bottom
               Htop Hbottom) in Hresult.
    injection Hresult as <-. eexists. split; [done|]. apply Hemitted. }
  assert (Normal reports = Normal result →
          ∃ out, result = reports ++ out ∧ (length out ≤ 2)%nat
                 ∧ ∀ r, r ∈ out →
                     r = reportNode node
                           (policyMessage (requirePadding context))
                     ∨ r = reportCloseBrace node
                             (policyMessage (requirePadding context)))
    as Hnone.
  { intros [= <-]. exists []. rewrite app_nil_r. split; [done|].
    split; [simpl; lia|]. intros r Hr. by apply elem_of_nil in Hr. }
  unfold visit, SwitchStatement, BlockStatement.
  repeat case_bool_decide; auto.
Qed.

End Visitor.

Section Policy.

(** The analysis reads the tokens and never the options. *)
Lemma analysis_ignores_options context context' fuel node :
  getSourceCode context = getSourceCode context' →
  isBlockTopPadded context fuel node = isBlockTopPadded context' fuel node
  ∧ isBlockBottomPadded context fuel node
    = isBlockBottomPadded context' fuel node.
Proof.
  destruct context as [opts sc], context' as [opts' sc']. simpl.
  intros <-. split; reflexivity.
Qed.


(** X4.  The two policies are complementary.  On the same tokens, each edge of a
    non-empty node is reported under exactly one of them, so the reports
    that "always" and "never" give for the node number two together. *)
Theorem policies_complementary context context' fuel node reports reports' :
  getSourceCode context = getSourceCode context' →
  requirePadding context = true →
  requirePadding context' = false →
  wellOrdered (sourceCode context) = true →
  wellPlaced (sourceCode context) node = true →
  (length (tokensAndComments (sourceCode context)) ≤ fuel)%nat →
  ∃ out out',
    checkPadding context fuel node reports = Normal (reports ++ out)
    ∧ checkPadding context' fuel node reports' = Normal (reports' ++ out')
    ∧ (length out + length out' = 2)%nat
    ∧ (reportNode node ALWAYS_MESSAGE ∈ out
       ↔ reportNode node NEVER_MESSAGE ∉ out')
    ∧ (reportCloseBrace node ALWAYS_MESSAGE ∈ out
       ↔ reportCloseBrace node NEVER_MESSAGE ∉ out').
Proof.
  intros Hsource Hrp Hrp' Hordered Hplaced Hfuel.
  destruct (analysis_returns context fuel node Hordered Hplaced Hfuel)
    as (top&bottom&Htop&Hbottom).
  destruct (analysis_ignores_options context context' fuel node Hsource)
    as [Htop' Hbottom'].
  rewrite Htop in Htop'. rewrite Hbottom in Hbottom'.
  exists (emitted (requirePadding context) node top bottom),
    (emitted (requirePadding context') node top bottom).
  split_and!; [by apply checkPadding_emitted..| | |].
  - rewrite Hrp, Hrp'. by destruct top, bottom.
  - rewrite Hrp, Hrp', !emitted_top. unfold violates. simpl.
    destruct top; simpl; intuition (auto; discriminate).
  - rewrite Hrp, Hrp', !emitted_bottom. unfold violates. simpl.
    destruct bottom; simpl; intuition (auto; discriminate).
Qed.

End Policy.

Section AnyNode.

Variable context : RuleContext.

Let stream : list Token := tokensAndComments (sourceCode context).

Hypothesis Hordered : wellOrdered (sourceCode context) = true.

(** What the store of code tokens returns is a code token of the
    sequence. *)
Lemma getOpenBrace_in_stream node t :
  getOpenBrace context node = Normal (Some t) →
  isComment t = false ∧ ∃ i, stream !! i = Some t.
Proof.
  unfold getOpenBrace.
  destruct (bool_decide (node_type node = "SwitchStatement")).
  - destruct (node_cases node !! O) as [case0|]; [|done]. simpl.
    unfold getTokenBefore, TokenStore.getTokenBefore.
    destruct (TokenStore.starts _ _) as [[|m]|]; simpl; [done| |done].
    intros [= Hm]. by apply ast_tokens_lookup in Hm.
  - unfold getFirstToken, TokenStore.getFirstToken.
    destruct (TokenStore.starts _ _) as [m|]; simpl; [|done].
    intros [= Hm]. by apply ast_tokens_lookup in Hm.
Qed.

Lemma getOpenBrace_ends node : getOpenBrace context node ≠ OutOfFuel.
Proof.
  unfold getOpenBrace.
  destruct (bool_decide (node_type node = "SwitchStatement")); [|done].
  by destruct (node_cases node !! O).
Qed.

Lemma getLastToken_in_stream `{Ranged A} (node : A) t :
  getLastToken (sourceCode context) node = Some t →
  isComment t = false ∧ ∃ j, stream !! j = Some t.
Proof.
  unfold getLastToken, TokenStore.getLastToken.
  destruct (TokenStore.ends _ _) as [m|]; simpl; [|done].
  intros Hm. by apply ast_tokens_lookup in Hm.
Qed.

(** In an ordered sequence a token stands at one index only. *)
Lemma ordered_index_unique i i' t :
  stream !! i = Some t → stream !! i' = Some t → i = i'.
Proof.
  intros Hi Hi'. destruct (orderedFrom_lookup _ _ _ _ Hordered Hi).
  assert (i ≤ i')%nat
    by (apply (ordered_index_le stream 0 i i' t t Hordered Hi Hi'); lia).
  assert (i' ≤ i)%nat
    by (apply (ordered_index_le stream 0 i' i t t Hordered Hi' Hi); lia).
  lia.
Qed.

Variable fuel : nat.

Hypothesis Hfuel : (length stream ≤ fuel)%nat.

(** The two analyses on any node, well placed or not. *)
Lemma isBlockTopPadded_walk node openBrace i :
  getOpenBrace context node = Normal (Some openBrace) →
  stream !! i = Some openBrace →
  isBlockTopPadded context fuel node
  = match firstContentAfter stream i (line (start (tok_loc openBrace))) with
    | Some (_, first) =>
        Normal (bool_decide (line (start (tok_loc openBrace)) + 2
                             ≤ line (start (tok_loc first))))
    | None => TypeError
    end.
Proof.
  intros Hopen Hi. unfold isBlockTopPadded. rewrite Hopen. simpl.
  rewrite (skipLeadingComments_spec context Hordered fuel _ i)
    by (done || fold stream; lia).
  fold stream. by destruct (firstContentAfter _ _ _) as [[? ?]|].
Qed.

Lemma isBlockBottomPadded_walk node closeBrace j :
  getLastToken (sourceCode context) node = Some closeBrace →
  stream !! j = Some closeBrace →
  isBlockBottomPadded context fuel node
  = match lastContentBefore stream j (line (end_ (tok_loc closeBrace))) with
    | Some (_, last) =>
        Normal (bool_decide (line (end_ (tok_loc last))
                             ≤ line (end_ (tok_loc closeBrace)) - 2))
    | None => TypeError
    end.
Proof.
  intros Hclose Hj. unfold isBlockBottomPadded. rewrite Hclose. simpl.
  pose proof (lookup_lt_Some _ _ _ Hj).
  rewrite (skipTrailingComments_spec context Hordered fuel _ j)
    by (done || fold stream; lia).
  fold stream. by destruct (lastContentBefore _ _ _) as [[? ?]|].
Qed.

(** X5.  On ordered tokens the rule always ends, whatever the node: with a
    bound of the length of the sequence neither loop uses up its bound, and
    a larger bound changes nothing. *)
Theorem visit_terminates node reports :
  isBlockTopPadded context fuel node ≠ OutOfFuel
  ∧ isBlockBottomPadded context fuel node ≠ OutOfFuel
  ∧ visit context fuel node reports ≠ OutOfFuel
  ∧ ∀ fuel', (length stream ≤ fuel')%nat →
             visit context fuel' node reports
             = visit context fuel node reports.
Proof.
  assert (∀ f, (length stream ≤ f)%nat →
            isBlockTopPadded context f node
            = isBlockTopPadded context fuel node
            ∧ isBlockTopPadded context f node ≠ OutOfFuel) as Htop.
  { intros f Hf. unfold isBlockTopPadded.
    pose proof (getOpenBrace_ends node) as Hends.
    destruct (getOpenBrace context node) as [[openBrace|]| |] eqn:Hopen;
      simpl; try done.
    destruct (getOpenBrace_in_stream node openBrace Hopen) as [_ [i Hi]].
    rewrite !(skipLeadingComments_spec context Hordered _ _ i)
      by (done || fold stream; lia).
    split; [done|]. by destruct (firstContentAfter _ _ _) as [[? ?]|]. }
  assert (∀ f, (length stream ≤ f)%nat →
            isBlockBottomPadded context f node
            = isBlockBottomPadded context fuel node
            ∧ isBlockBottomPadded context f node ≠ OutOfFuel) as Hbottom.
  { intros f Hf. unfold isBlockBottomPadded.
    destruct (getLastToken (sourceCode context) node) as [closeBrace|]
      eqn:Hclose; simpl; try done.
    destruct (getLastToken_in_stream node closeBrace Hclose) as [_ [j Hj]].
    pose proof (lookup_lt_Some _ _ _ Hj).
    rewrite !(skipTrailingComments_spec context Hordered _ _ j)
      by (done || fold stream; lia).
    split; [done|]. by destruct (lastContentBefore _ _ _) as [[? ?]|]. }
  destruct (Htop fuel Hfuel) as [_ Htop'].
  destruct (Hbottom fuel Hfuel) as [_ Hbottom'].
  split_and!; [done..| |].
  - unfold visit, SwitchStatement, BlockStatement, checkPadding.
    repeat case_bool_decide; try done;
      destruct (isBlockTopPadded context fuel node) as [top| |];
      try done;
      destruct (isBlockBottomPadded context fuel node) as [bottom| |];
      try done; simpl; by destruct (requirePadding context).
  - intros fuel' Hfuel'.
    destruct (Htop fuel' Hfuel') as [Heq _].
    destruct (Hbottom fuel' Hfuel') as [Heq' _].
    unfold visit, SwitchStatement, BlockStatement, checkPadding.
    by rewrite Heq, Heq'.
Qed.

(** X6.  The top analysis throws in three cases only: a switch without cases,
    a node for which the store has no opening delimiter, or an opening
    delimiter followed to the end of the sequence by nothing but comments
    that start on its line. *)
Theorem isBlockTopPadded_throws_iff node :
  isBlockTopPadded context fuel node = TypeError ↔
  getOpenBrace context node = TypeError
  ∨ getOpenBrace context node = Normal None
  ∨ ∃ openBrace i,
      getOpenBrace context node = Normal (Some openBrace)
      ∧ stream !! i = Some openBrace
      ∧ ∀ k t, (i < k)%nat → stream !! k = Some t →
               isComment t = true
               ∧ line (start (tok_loc t)) = line (start (tok_loc openBrace)).
Proof.
  destruct (getOpenBrace context node) as [[openBrace|]| |] eqn:Hopen.
  - destruct (getOpenBrace_in_stream node openBrace Hopen) as [_ [i Hi]].
    rewrite (isBlockTopPadded_walk node openBrace i Hopen Hi).
    unfold firstContentAfter.
    destruct (list_find _ (drop (S i) stream)) as [[n first]|] eqn:Hfind.
    + split; [done|]. intros [?|[?|(o&i'&[= <-]&Hi'&Hall)]]; [done..|].
      assert (i' = i) as -> by by eapply ordered_index_unique.
      apply list_find_Some in Hfind as (Hn&HP&_).
      rewrite lookup_drop in Hn. destruct HP.
      apply (Hall (S i + n)%nat); [lia|done].
    + split; [|done]. intros _. right. right. exists openBrace, i.
      split_and!; [done..|]. intros k t Hk Ht.
      apply list_find_None in Hfind.
      assert (t ∈ drop (S i) stream) as Hin.
      { apply list_elem_of_lookup. exists (k - S i)%nat.
        rewrite lookup_drop. by replace (S i + (k - S i))%nat with k by lia. }
      pose proof (proj1 (Forall_forall _ _) Hfind t Hin) as Hnot.
      split.
      * destruct (decide (isComment t = true)); [done|].
        exfalso. apply Hnot. by intros [? _].
      * destruct (decide (line (start (tok_loc t))
                          = line (start (tok_loc openBrace)))); [done|].
        exfalso. apply Hnot. by intros [_ ?].
  - unfold isBlockTopPadded. rewrite Hopen. simpl. split; auto.
  - unfold isBlockTopPadded. rewrite Hopen. simpl. split; auto.
  - unfold isBlockTopPadded. rewrite Hopen. simpl. split; [done|].
    intros [?|[?|(?&?&?&_)]]; done.
Qed.


End AnyNode.

Section SameLineComments.

Lemma orderedFrom_remove (p : Z) (pre : list Token) c rest :
  orderedFrom p (pre ++ c :: rest) = true →
  orderedFrom p (pre ++ rest) = true.
Proof.
  revert p. induction pre as [|a pre IH]; intros p; simpl.
  - rewrite !andb_true_iff, Z.leb_le, Z.ltb_lt. intros [[? ?] Hrest].
    eapply orderedFrom_weaken; [|done]. lia.
  - rewrite !andb_true_iff. intros [? Hrest]. split; [done|]. by apply IH.
Qed.

(** A comment is no code token: putting one into the sequence leaves the
    store of code tokens as it was. *)
Lemma ast_tokens_insert_comment sc sc' (pre : list Token) c rest :
  tokensAndComments sc = pre ++ rest →
  tokensAndComments sc' = pre ++ c :: rest →
  isComment c = true →
  ast_tokens sc' = ast_tokens sc.
Proof.
  intros Hs Hs' Hc. unfold ast_tokens. rewrite Hs, Hs', !filter_app.
  rewrite filter_cons_False; [done|]. by rewrite Hc.
Qed.

(** X8.  A comment right after the opening delimiter that starts on the
    delimiter's line is transparent to the top analysis: with it and
    without it the analysis gives the same, wherever the comment ends. *)
Theorem leading_comment_transparent context context' fuel fuel' node
    (pre : list Token) openBrace comment rest :
  tokensAndComments (sourceCode context) = pre ++ openBrace :: rest →
  tokensAndComments (sourceCode context')
  = pre ++ openBrace :: comment :: rest →
  wellOrdered (sourceCode context') = true →
  (length (pre ++ openBrace :: comment :: rest) ≤ fuel)%nat →
  (length (pre ++ openBrace :: comment :: rest) ≤ fuel')%nat →
  isComment comment = true →
  line (start (tok_loc comment)) = line (start (tok_loc openBrace)) →
  getOpenBrace context node = Normal (Some openBrace) →
  getOpenBrace context' node = Normal (Some openBrace)
  ∧ isBlockTopPadded context' fuel' node
    = isBlockTopPadded context fuel node.
Proof.
  intros Hs Hs' Hordered' Hfuel Hfuel' Hcomment Hline Hopen.
  assert (tokensAndComments (sourceCode context)
          = (pre ++ [openBrace]) ++ rest) as Es
    by (by rewrite Hs, <- app_assoc).
  assert (tokensAndComments (sourceCode context')
          = (pre ++ [openBrace]) ++ comment :: rest) as Es'
    by (by rewrite Hs', <- app_assoc).
  assert (wellOrdered (sourceCode context) = true) as Hordered.
  { unfold wellOrdered. rewrite Es. unfold wellOrdered in Hordered'.
    rewrite Es' in Hordered'. by eapply orderedFrom_remove. }
  assert (ast_tokens (sourceCode context') = ast_tokens (sourceCode context))
    as Hcode by by eapply ast_tokens_insert_comment.
  assert (getOpenBrace context' node = Normal (Some openBrace)) as Hopen'.
  { rewrite <- Hopen. unfold getOpenBrace, getTokenBefore, getFirstToken.
    by rewrite Hcode. }
  split; [done|].
  assert (length (tokensAndComments (sourceCode context)) ≤ fuel)%nat
    as Hlen
    by (rewrite Hs; rewrite !length_app in *; simpl in *; lia).
  assert (length (tokensAndComments (sourceCode context')) ≤ fuel')%nat
    as Hlen' by by rewrite Hs'.
  rewrite (isBlockTopPadded_walk context Hordered fuel Hlen
             node openBrace (length pre) Hopen)
    by (rewrite Hs; by apply list_lookup_middle).
  rewrite (isBlockTopPadded_walk context' Hordered' fuel' Hlen'
             node openBrace (length pre) Hopen')
    by (rewrite Hs'; by apply list_lookup_middle).
  unfold firstContentAfter. rewrite Es, Es'.
  rewrite !drop_app_length' by (rewrite length_app; simpl; lia).
  simpl. rewrite decide_False by (intros HP; apply HP; auto).
  by destruct (list_find _ rest) as [[? ?]|].
Qed.

(** X9.  A comment right before the node's last token that ends on that
    token's end line is transparent to the bottom analysis, wherever the
    comment starts. *)
Theorem trailing_comment_transparent context context' fuel fuel' node
    (pre : list Token) comment closeBrace post :
  tokensAndComments (sourceCode context) = pre ++ closeBrace :: post →
  tokensAndComments (sourceCode context')
  = pre ++ comment :: closeBrace :: post →
  wellOrdered (sourceCode context') = true →
  (length (pre ++ comment :: closeBrace :: post) ≤ fuel)%nat →
  (length (pre ++ comment :: closeBrace :: post) ≤ fuel')%nat →
  isComment comment = true →
  line (end_ (tok_loc comment)) = line (end_ (tok_loc closeBrace)) →
  getLastToken (sourceCode context) node = Some closeBrace →
  getLastToken (sourceCode context') node = Some closeBrace
  ∧ isBlockBottomPadded context' fuel' node
    = isBlockBottomPadded context fuel node.
Proof.
  intros Hs Hs' Hordered' Hfuel Hfuel' Hcomment Hline Hclose.
  assert (tokensAndComments (sourceCode context')
          = (pre ++ [comment]) ++ closeBrace :: post) as Es'
    by (by rewrite Hs', <- app_assoc).
  assert (wellOrdered (sourceCode context) = true) as Hordered.
  { unfold wellOrdered. rewrite Hs. unfold wellOrdered in Hordered'.
    rewrite Hs' in Hordered'. by eapply orderedFrom_remove. }
  assert (ast_tokens (sourceCode context') = ast_tokens (sourceCode context))
    as Hcode by by eapply ast_tokens_insert_comment.
  assert (getLastToken (sourceCode context') node = Some closeBrace)
    as Hclose'.
  { rewrite <- Hclose. unfold getLastToken. by rewrite Hcode. }
  split; [done|].
  assert (length (tokensAndComments (sourceCode context)) ≤ fuel)%nat
    as Hlen
    by (rewrite Hs; rewrite !length_app in *; simpl in *; lia).
  assert (length (tokensAndComments (sourceCode context')) ≤ fuel')%nat
    as Hlen' by by rewrite Hs'.
  rewrite (isBlockBottomPadded_walk context Hordered fuel Hlen
             node closeBrace (length pre) Hclose)
    by (rewrite Hs; by apply list_lookup_middle).
  rewrite (isBlockBottomPadded_walk context' Hordered' fuel' Hlen'
             node closeBrace (S (length pre)) Hclose')
    by (rewrite Es'; apply list_lookup_middle; rewrite length_app;
        simpl; lia).
  unfold lastContentBefore. rewrite Hs, Es'.
  rewrite take_app_length.
  rewrite take_app_length' by (rewrite length_app; simpl; lia).
  rewrite reverse_snoc. simpl.
  rewrite decide_False by (intros HP; apply HP; auto).
  by destruct (list_find _ (reverse pre)) as [[? ?]|].
Qed.

End SameLineComments.

Section Lines.

Lemma linesFrom_lookup (l : Z) (tokens : list Token) i t :
  linesFrom l tokens = true → tokens !! i = Some t →
  l ≤ line (start (tok_loc t))
  ∧ line (start (tok_loc t)) ≤ line (end_ (tok_loc t)).
Proof.
  revert l i. induction tokens as [|a tokens IH]; intros l i; [done|].
  simpl. rewrite !andb_true_iff, !Z.leb_le.
  intros [[Hl Ha] Hrest]. destruct i as [|i]; simpl.
  - by intros [= <-].
  - intros Hi. destruct (IH _ _ Hrest Hi). lia.
Qed.

Lemma linesFrom_lt (l : Z) (tokens : list Token) i j t u :
  linesFrom l tokens = true →
  tokens !! i = Some t → tokens !! j = Some u → (i < j)%nat →
  line (end_ (tok_loc t)) ≤ line (start (tok_loc u)).
Proof.
  revert l i j. induction tokens as [|a tokens IH]; intros l i j; [done|].
  simpl. rewrite !andb_true_iff. intros [_ Hrest] Hi Hj Hlt.
  destruct j as [|j]; [lia|]. destruct i as [|i]; simpl in *.
  - injection Hi as <-. by destruct (linesFrom_lookup _ _ _ _ Hrest Hj).
  - eapply (IH _ i j); eauto with lia.
Qed.

Variable context : RuleContext.

Let stream : list Token := tokensAndComments (sourceCode context).

Hypothesis Hordered : wellOrdered (sourceCode context) = true.
Hypothesis Hlines : linesOrdered (sourceCode context) = true.

Variables (node : ASTNode) (openBrace closeBrace : Token) (i j : nat).

Hypothesis Hdelimited : Delimited context node openBrace closeBrace i j.

Variable fuel : nat.

Hypothesis Hfuel : (length stream ≤ fuel)%nat.

Lemma top_padded_lines :
  isBlockTopPadded context fuel node = Normal true ↔
  ∀ k t, (i < k)%nat → stream !! k = Some t →
         (isComment t = true
          ∧ line (start (tok_loc t)) = line (start (tok_loc openBrace)))
         ∨ line (start (tok_loc openBrace)) + 2 ≤ line (start (tok_loc t)).
Proof.
  destruct (isBlockTopPadded_delimited context Hordered _ _ _ _ _
              Hdelimited fuel Hfuel) as (n&first&Hfind&->).
  apply list_find_Some in Hfind as (Hn&HP&Hmin).
  rewrite lookup_drop in Hn. split.
  - intros [= Hle%bool_decide_eq_true] k t Hk Ht.
    destruct (decide (k < S i + n)%nat) as [Hbefore|Hafter].
    + left. assert (drop (S i) stream !! (k - S i)%nat = Some t) as Hd.
      { rewrite lookup_drop.
        by replace (S i + (k - S i))%nat with k by lia. }
      pose proof (Hmin _ _ Hd ltac:(lia)) as Hnot. split.
      * destruct (decide (isComment t = true)); [done|].
        exfalso. apply Hnot. by intros [? _].
      * destruct (decide (line (start (tok_loc t))
                          = line (start (tok_loc openBrace)))); [done|].
        exfalso. apply Hnot. by intros [_ ?].
    + right. destruct (decide (k = S i + n)%nat) as [->|].
      * pose proof (eq_trans (eq_sym Ht) Hn) as [= ->]. done.
      * pose proof (linesFrom_lt _ _ _ _ _ _ Hlines Hn Ht ltac:(lia)).
        destruct (linesFrom_lookup _ _ _ _ Hlines Hn). lia.
  - intros Hall. f_equal. apply bool_decide_eq_true_2.
    destruct (Hall (S i + n)%nat first ltac:(lia) Hn) as [Hsame|?]; [|done].
    by destruct HP.
Qed.

Lemma bottom_padded_lines :
  isBlockBottomPadded context fuel node = Normal true ↔
  ∀ k t, (k < j)%nat → stream !! k = Some t →
         (isComment t = true
          ∧ line (end_ (tok_loc t)) = line (end_ (tok_loc closeBrace)))
         ∨ line (end_ (tok_loc t)) ≤ line (end_ (tok_loc closeBrace)) - 2.
Proof.
  destruct (isBlockBottomPadded_delimited context Hordered _ _ _ _ _
              Hdelimited fuel Hfuel) as (n&last&Hfind&->).
  pose proof (lookup_lt_Some _ _ _
                (delimited_close_at _ _ _ _ _ _ Hdelimited)) as Hj.
  assert (length (take j (tokensAndComments (sourceCode context))) = j)
    as Htake by (rewrite length_take; lia).
  unfold stream.
  apply list_find_Some in Hfind as (Hn&HP&Hmin).
  apply reverse_lookup_Some in Hn as [Hn Hlt]. rewrite Htake in Hn, Hlt.
  apply lookup_take_Some in Hn as [Hn _]. split.
  - intros [= Hle%bool_decide_eq_true] k t Hk Ht.
    destruct (decide (j - S n < k)%nat) as [Hafter|Hbefore].
    + left.
      assert (reverse (take j (tokensAndComments (sourceCode context)))
              !! (j - S k)%nat = Some t) as Hr.
      { apply reverse_lookup_Some. rewrite Htake. split; [|lia].
        replace (j - S (j - S k))%nat with k by lia.
        by rewrite lookup_take_lt. }
      pose proof (Hmin _ _ Hr ltac:(lia)) as Hnot. split.
      * destruct (decide (isComment t = true)); [done|].
        exfalso. apply Hnot. by intros [? _].
      * destruct (decide (line (end_ (tok_loc t))
                          = line (end_ (tok_loc closeBrace)))); [done|].
        exfalso. apply Hnot. by intros [_ ?].
    + right. destruct (decide (k = j - S n)%nat) as [->|].
      * pose proof (eq_trans (eq_sym Ht) Hn) as [= ->]. done.
      * pose proof (linesFrom_lt _ _ _ _ _ _ Hlines Ht Hn ltac:(lia)).
        destruct (linesFrom_lookup _ _ _ _ Hlines Hn). lia.
  - intros Hall. f_equal. apply bool_decide_eq_true_2.
    destruct (Hall (j - S n)%nat last ltac:(lia) Hn) as [Hsame|?]; [|done].
    by destruct HP.
Qed.

End Lines.

Section BlankLines.

Variable context : RuleContext.

Let stream : list Token := tokensAndComments (sourceCode context).

(** Where the two walks of a delimited node end. *)
Lemma walk_ends node openBrace closeBrace i j fuel :
  wellOrdered (sourceCode context) = true →
  Delimited context node openBrace closeBrace i j →
  (length stream ≤ fuel)%nat →
  (∃ k first,
     stream !! k = Some first ∧ (i < k ≤ j)%nat
     ∧ isBlockTopPadded context fuel node
       = Normal (bool_decide (line (start (tok_loc openBrace)) + 2
                              ≤ line (start (tok_loc first)))))
  ∧ (∃ k last,
       stream !! k = Some last ∧ (i ≤ k < j)%nat
       ∧ isBlockBottomPadded context fuel node
         = Normal (bool_decide (line (end_ (tok_loc last))
                                ≤ line (end_ (tok_loc closeBrace)) - 2))).
Proof.
  intros Hordered Hdelimited Hfuel.
  destruct (top_walk context Hordered _ _ _ _ _ Hdelimited fuel Hfuel)
    as (n&first&Hfirst&Hn&Hforward).
  destruct (bottom_walk context Hordered _ _ _ _ _ Hdelimited fuel Hfuel)
    as (m&last&Hlast&Hm&Hbackward).
  pose proof (lookup_lt_Some _ _ _
                (delimited_close_at _ _ _ _ _ _ Hdelimited)) as Hj.
  split.
  - exists (S i + n)%nat, first. split_and!; [|lia..|].
    + apply list_find_Some in Hfirst as (Hat&_&_).
      by rewrite lookup_drop in Hat.
    + unfold isBlockTopPadded.
      rewrite (delimited_open _ _ _ _ _ _ Hdelimited). simpl.
      by rewrite Hforward.
  - exists (j - S m)%nat, last. split_and!; [|lia..|].
    + apply list_find_Some in Hlast as (Hat&_&_).
      apply reverse_lookup_Some in Hat as [Hat Hlen].
      rewrite length_take_le in Hat, Hlen by lia.
      by apply lookup_take_Some in Hat as [Hat _].
    + unfold isBlockBottomPadded.
      rewrite (delimited_close _ _ _ _ _ _ Hdelimited). simpl.
      by rewrite Hbackward.
Qed.

(** X10.  When the lines of the tokens are in order, the top of a non-empty node
    counts as padded exactly when every token or comment after the opening
    delimiter either is a comment that starts on the delimiter's line or
    starts at least two lines below the delimiter: nothing starts on the
    line below it. *)
Theorem top_padded_iff_blank_line fuel node :
  wellOrdered (sourceCode context) = true →
  linesOrdered (sourceCode context) = true →
  wellPlaced (sourceCode context) node = true →
  (length stream ≤ fuel)%nat →
  ∃ openBrace i,
    getOpenBrace context node = Normal (Some openBrace)
    ∧ stream !! i = Some openBrace
    ∧ (isBlockTopPadded context fuel node = Normal true ↔
       ∀ k t, (i < k)%nat → stream !! k = Some t →
              (isComment t = true
               ∧ line (start (tok_loc t))
                 = line (start (tok_loc openBrace)))
              ∨ line (start (tok_loc openBrace)) + 2
                ≤ line (start (tok_loc t))).
Proof.
  intros Hordered Hlines Hplaced Hfuel.
  destruct (wellPlaced_delimited context Hordered node Hplaced)
    as (openBrace&closeBrace&i&j&Hdelimited).
  exists openBrace, i. split_and!; [by destruct Hdelimited..|].
  by eapply top_padded_lines.
Qed.

(** X11.  Likewise the bottom counts as padded exactly when every token or
    comment before the node's last token either is a comment that ends on
    that token's end line or ends at least two lines above it. *)
Theorem bottom_padded_iff_blank_line fuel node :
  wellOrdered (sourceCode context) = true →
  linesOrdered (sourceCode context) = true →
  wellPlaced (sourceCode context) node = true →
  (length stream ≤ fuel)%nat →
  ∃ closeBrace j,
    getLastToken (sourceCode context) node = Some closeBrace
    ∧ stream !! j = Some closeBrace
    ∧ (isBlockBottomPadded context fuel node = Normal true ↔
       ∀ k t, (k < j)%nat → stream !! k = Some t →
              (isComment t = true
               ∧ line (end_ (tok_loc t))
                 = line (end_ (tok_loc closeBrace)))
              ∨ line (end_ (tok_loc t))
                ≤ line (end_ (tok_loc closeBrace)) - 2).
Proof.
  intros Hordered Hlines Hplaced Hfuel.
  destruct (wellPlaced_delimited context Hordered node Hplaced)
    as (openBrace&closeBrace&i&j&Hdelimited).
  exists closeBrace, j. split_and!; [by destruct Hdelimited..|].
  by eapply bottom_padded_lines.
Qed.

(** X12.  A non-empty node that spans fewer than three lines, its last token
    ending less than two lines below the start of its opening delimiter,
    is padded at neither edge: when padding is required both edges are
    reported, and when it is forbidden none is. *)
Theorem short_node_unpadded fuel node reports openBrace closeBrace :
  wellOrdered (sourceCode context) = true →
  linesOrdered (sourceCode context) = true →
  wellPlaced (sourceCode context) node = true →
  (length stream ≤ fuel)%nat →
  getOpenBrace context node = Normal (Some openBrace) →
  getLastToken (sourceCode context) node = Some closeBrace →
  line (end_ (tok_loc closeBrace)) < line (start (tok_loc openBrace)) + 2 →
  isBlockTopPadded context fuel node = Normal false
  ∧ isBlockBottomPadded context fuel node = Normal false
  ∧ checkPadding context fuel node reports
    = Normal (if requirePadding context
              then reports ++ [reportNode node ALWAYS_MESSAGE;
                               reportCloseBrace node ALWAYS_MESSAGE]
              else reports).
Proof.
  intros Hordered Hlines Hplaced Hfuel Hopen Hclose Hshort.
  destruct (wellPlaced_delimited context Hordered node Hplaced)
    as (openBrace'&closeBrace'&i&j&Hdelimited).
  pose proof (delimited_open _ _ _ _ _ _ Hdelimited) as Hopen'.
  pose proof (delimited_close _ _ _ _ _ _ Hdelimited) as Hclose'.
  rewrite Hopen in Hopen'. injection Hopen' as <-.
  rewrite Hclose in Hclose'. injection Hclose' as <-.
  pose proof (delimited_open_at _ _ _ _ _ _ Hdelimited) as Hi.
  pose proof (delimited_close_at _ _ _ _ _ _ Hdelimited) as Hj.
  destruct (linesFrom_lookup _ _ _ _ Hlines Hi) as [_ Hopen_lines].
  destruct (linesFrom_lookup _ _ _ _ Hlines Hj) as [_ Hclose_lines].
  destruct (walk_ends node openBrace closeBrace i j fuel Hordered
              Hdelimited Hfuel)
    as [(k&first&Hk&Hik&Htop) (k'&last&Hk'&Hik'&Hbottom)].
  assert (isBlockTopPadded context fuel node = Normal false) as Htop'.
  { rewrite Htop. f_equal. apply bool_decide_eq_false_2.
    destruct (linesFrom_lookup _ _ _ _ Hlines Hk) as [_ Hfirst_lines].
    destruct (decide (k = j)) as [->|].
    - pose proof (eq_trans (eq_sym Hk) Hj) as [= ->]. lia.
    - pose proof (linesFrom_lt _ _ _ _ _ _ Hlines Hk Hj ltac:(lia)). lia. }
  assert (isBlockBottomPadded context fuel node = Normal false) as Hbottom'.
  { rewrite Hbottom. f_equal. apply bool_decide_eq_false_2.
    destruct (linesFrom_lookup _ _ _ _ Hlines Hk') as [_ Hlast_lines].
    destruct (decide (k' = i)) as [->|].
    - pose proof (eq_trans (eq_sym Hk') Hi) as [= ->]. lia.
    - pose proof (linesFrom_lt _ _ _ _ _ _ Hlines Hi Hk' ltac:(lia)). lia. }
  split_and!; [done..|].
  rewrite (checkPadding_emitted context fuel node reports false false
             Htop' Hbottom').
  unfold emitted, violates, policyMessage, ALWAYS_MESSAGE.
  destruct (requirePadding context); simpl; by rewrite ?app_nil_r.
Qed.

End BlankLines.

Section Locality.

(** X13.  The analysis of a node reads nothing outside the node.  Two token
    sequences that hold the same tokens from the node's opening delimiter
    to its last token, and in which the store finds these two delimiters
    for the node, give the same analysis and the same reports, whatever
    precedes the opening delimiter and follows the last token. *)
Theorem analysis_local context context' fuel fuel' node reports
    (pre pre' inner post post' : list Token) openBrace closeBrace :
  tokensAndComments (sourceCode context)
  = pre ++ openBrace :: inner ++ closeBrace :: post →
  tokensAndComments (sourceCode context')
  = pre' ++ openBrace :: inner ++ closeBrace :: post' →
  wellOrdered (sourceCode context) = true →
  wellOrdered (sourceCode context') = true →
  (length (tokensAndComments (sourceCode context)) ≤ fuel)%nat →
  (length (tokensAndComments (sourceCode context')) ≤ fuel')%nat →
  getOpenBrace context node = Normal (Some openBrace) →
  getOpenBrace context' node = Normal (Some openBrace) →
  getLastToken (sourceCode context) node = Some closeBrace →
  getLastToken (sourceCode context') node = Some closeBrace →
  requirePadding context' = requirePadding context →
  isBlockTopPadded context' fuel' node = isBlockTopPadded context fuel node
  ∧ isBlockBottomPadded context' fuel' node
    = isBlockBottomPadded context fuel node
  ∧ visit context' fuel' node reports = visit context fuel node reports.
Proof.
  intros Hs Hs' Hordered Hordered' Hfuel Hfuel' Hopen Hopen' Hclose Hclose'
    Hpolicy.
  destruct (getOpenBrace_in_stream context node openBrace Hopen)
    as [Hopen_code _].
  destruct (getLastToken_in_stream context node closeBrace Hclose)
    as [Hclose_code _].
  assert (∀ (p q : list Token) blockStart,
            list_find (λ t, ¬ (isComment t = true
                               ∧ line (start (tok_loc t)) = blockStart))
              (drop (S (length p))
                 (p ++ openBrace :: inner ++ closeBrace :: q))
            = list_find (λ t, ¬ (isComment t = true
                                 ∧ line (start (tok_loc t)) = blockStart))
                (inner ++ [closeBrace])) as Hforward.
  { intros p q blockStart.
    replace (p ++ openBrace :: inner ++ closeBrace :: q)
      with ((p ++ [openBrace]) ++ (inner ++ [closeBrace]) ++ q)
      by (by rewrite <- !app_assoc).
    rewrite drop_app_length' by (rewrite length_app; simpl; lia).
    destruct (list_find_elem_of
                (λ t, ¬ (isComment t = true
                         ∧ line (start (tok_loc t)) = blockStart))
                (inner ++ [closeBrace]) closeBrace) as [[n first] Hfind].
    { apply elem_of_app. right. by apply list_elem_of_singleton. }
    { rewrite Hclose_code. by intros [? _]. }
    rewrite Hfind. by apply list_find_app_l. }
  assert (∀ (p q : list Token) blockEnd,
            list_find (λ t, ¬ (isComment t = true
                               ∧ line (end_ (tok_loc t)) = blockEnd))
              (reverse (take (S (length p + length inner))
                          (p ++ openBrace :: inner ++ closeBrace :: q)))
            = list_find (λ t, ¬ (isComment t = true
                                 ∧ line (end_ (tok_loc t)) = blockEnd))
                (reverse inner ++ [openBrace])) as Hbackward.
  { intros p q blockEnd.
    replace (p ++ openBrace :: inner ++ closeBrace :: q)
      with ((p ++ openBrace :: inner) ++ closeBrace :: q)
      by (by rewrite <- !app_assoc).
    rewrite take_app_length'
      by (rewrite length_app; simpl; lia).
    rewrite reverse_app, reverse_cons, <- app_assoc.
    rewrite (app_assoc (reverse inner)).
    destruct (list_find_elem_of
                (λ t, ¬ (isComment t = true
                         ∧ line (end_ (tok_loc t)) = blockEnd))
                (reverse inner ++ [openBrace]) openBrace)
      as [[n last] Hfind].
    { apply elem_of_app. right. by apply list_elem_of_singleton. }
    { rewrite Hopen_code. by intros [? _]. }
    rewrite Hfind. by apply list_find_app_l. }
  assert (isBlockTopPadded context' fuel' node
          = isBlockTopPadded context fuel node) as Htop.
  { rewrite (isBlockTopPadded_walk context Hordered fuel Hfuel
               node openBrace (length pre) Hopen)
      by (rewrite Hs; by apply list_lookup_middle).
    rewrite (isBlockTopPadded_walk context' Hordered' fuel' Hfuel'
               node openBrace (length pre') Hopen')
      by (rewrite Hs'; by apply list_lookup_middle).
    unfold firstContentAfter. by rewrite Hs, Hs', !Hforward. }
  assert (isBlockBottomPadded context' fuel' node
          = isBlockBottomPadded context fuel node) as Hbottom.
  { rewrite (isBlockBottomPadded_walk context Hordered fuel Hfuel
               node closeBrace (S (length pre + length inner)) Hclose).
    2:{ rewrite Hs.
        replace (pre ++ openBrace :: inner ++ closeBrace :: post)
          with ((pre ++ openBrace :: inner) ++ closeBrace :: post)
          by (by rewrite <- !app_assoc).
        apply list_lookup_middle. rewrite length_app. simpl. lia. }
    rewrite (isBlockBottomPadded_walk context' Hordered' fuel' Hfuel'
               node closeBrace (S (length pre' + length inner)) Hclose').
    2:{ rewrite Hs'.
        replace (pre' ++ openBrace :: inner ++ closeBrace :: post')
          with ((pre' ++ openBrace :: inner) ++ closeBrace :: post')
          by (by rewrite <- !app_assoc).
        apply list_lookup_middle. rewrite length_app. simpl. lia. }
    unfold lastContentBefore. by rewrite Hs, Hs', !Hbackward. }
  split_and!; [done..|].
  unfold visit, SwitchStatement, BlockStatement, checkPadding.
  by rewrite Htop, Hbottom, Hpolicy.
Qed.

End Locality.

(** ** The further properties on the sample programs *)

Section OnMoreSamples.

Import Samples MoreSamples.

Lemma visit_appends_witness :
  ∃ out,
    [reportNode tight_block ALWAYS_MESSAGE;
     reportCloseBrace tight_block ALWAYS_MESSAGE] = [] ++ out
    ∧ (length out ≤ 2)%nat
    ∧ ∀ r, r ∈ out →
        r = reportNode tight_block
              (policyMessage (requirePadding (always tight_tokens)))
        ∨ r = reportCloseBrace tight_block
                (policyMessage (requirePadding (always tight_tokens))).
Proof.
  apply (visit_appends (always tight_tokens) 6 tight_block []).
  reflexivity.
Defined.


Lemma policies_complementary_witness :
  ∃ out out',
    checkPadding (always commented_tokens) 7 commented_block []
    = Normal ([] ++ out)
    ∧ checkPadding (never commented_tokens) 7 commented_block []
      = Normal ([] ++ out')
    ∧ (length out + length out' = 2)%nat
    ∧ (reportNode commented_block ALWAYS_MESSAGE ∈ out
       ↔ reportNode commented_block NEVER_MESSAGE ∉ out')
    ∧ (reportCloseBrace commented_block ALWAYS_MESSAGE ∈ out
       ↔ reportCloseBrace commented_block NEVER_MESSAGE ∉ out').
Proof.
  apply (policies_complementary (always commented_tokens)
           (never commented_tokens) 7 commented_block [] []);
    solve [reflexivity | simpl; lia].
Defined.

Lemma visit_terminates_witness :
  isBlockTopPadded (always unclosed_tokens) 2 unclosed_block ≠ OutOfFuel
  ∧ isBlockBottomPadded (always unclosed_tokens) 2 unclosed_block
    ≠ OutOfFuel
  ∧ visit (always unclosed_tokens) 2 unclosed_block [] ≠ OutOfFuel
  ∧ ∀ fuel', (length unclosed_tokens ≤ fuel')%nat →
             visit (always unclosed_tokens) fuel' unclosed_block []
             = visit (always unclosed_tokens) 2 unclosed_block [].
Proof.
  apply (visit_terminates (always unclosed_tokens) eq_refl 2
           ltac:(simpl; lia) unclosed_block []).
Defined.

Lemma isBlockTopPadded_throws_iff_witness :
  isBlockTopPadded (always unclosed_tokens) 2 unclosed_block = TypeError ↔
  getOpenBrace (always unclosed_tokens) unclosed_block = TypeError
  ∨ getOpenBrace (always unclosed_tokens) unclosed_block = Normal None
  ∨ ∃ openBrace i,
      getOpenBrace (always unclosed_tokens) unclosed_block
      = Normal (Some openBrace)
      ∧ unclosed_tokens !! i = Some openBrace
      ∧ ∀ k t, (i < k)%nat → unclosed_tokens !! k = Some t →
               isComment t = true
               ∧ line (start (tok_loc t)) = line (start (tok_loc openBrace)).
Proof.
  apply (isBlockTopPadded_throws_iff (always unclosed_tokens) eq_refl 2
           ltac:(simpl; lia) unclosed_block).
Defined.


Lemma leading_comment_transparent_witness :
  getOpenBrace (always switch_comment_tokens) switch_comment_node
  = Normal (Some (tok "Punctuator" 1 11 1 12 11 12))
  ∧ isBlockTopPadded (always switch_comment_tokens) 12 switch_comment_node
    = isBlockTopPadded (always switch_plain_tokens) 12 switch_comment_node.
Proof.
  apply (leading_comment_transparent (always switch_plain_tokens)
           (always switch_comment_tokens) 12 12 switch_comment_node
           (take 4 switch_plain_tokens) (tok "Punctuator" 1 11 1 12 11 12)
           (tok "Block" 1 13 1 20 13 20) (drop 5 switch_plain_tokens));
    solve [reflexivity | simpl; lia].
Defined.

Lemma trailing_comment_transparent_witness :
  getLastToken (sourceCode (always trailing_comment_tokens)) trailing_block
  = Some (tok "Punctuator" 5 8 5 9 23 24)
  ∧ isBlockBottomPadded (always trailing_comment_tokens) 7 trailing_block
    = isBlockBottomPadded (always trailing_plain_tokens) 7 trailing_block.
Proof.
  apply (trailing_comment_transparent (always trailing_plain_tokens)
           (always trailing_comment_tokens) 7 7 trailing_block
           (take 5 trailing_plain_tokens) (tok "Block" 5 0 5 7 15 22)
           (tok "Punctuator" 5 8 5 9 23 24) []);
    solve [reflexivity | simpl; lia].
Defined.

Lemma top_padded_iff_blank_line_witness :
  ∃ openBrace i,
    getOpenBrace (always padded_tokens) padded_block
    = Normal (Some openBrace)
    ∧ padded_tokens !! i = Some openBrace
    ∧ (isBlockTopPadded (always padded_tokens) 6 padded_block = Normal true ↔
       ∀ k t, (i < k)%nat → padded_tokens !! k = Some t →
              (isComment t = true
               ∧ line (start (tok_loc t))
                 = line (start (tok_loc openBrace)))
              ∨ line (start (tok_loc openBrace)) + 2
                ≤ line (start (tok_loc t))).
Proof.
  apply (top_padded_iff_blank_line (always padded_tokens) 6 padded_block);
    solve [reflexivity | simpl; lia].
Defined.

Lemma bottom_padded_iff_blank_line_witness :
  ∃ closeBrace j,
    getLastToken (sourceCode (always padded_tokens)) padded_block
    = Some closeBrace
    ∧ padded_tokens !! j = Some closeBrace
    ∧ (isBlockBottomPadded (always padded_tokens) 6 padded_block
       = Normal true ↔
       ∀ k t, (k < j)%nat → padded_tokens !! k = Some t →
              (isComment t = true
               ∧ line (end_ (tok_loc t))
                 = line (end_ (tok_loc closeBrace)))
              ∨ line (end_ (tok_loc t))
                ≤ line (end_ (tok_loc closeBrace)) - 2).
Proof.
  apply (bottom_padded_iff_blank_line (always padded_tokens) 6 padded_block);
    solve [reflexivity | simpl; lia].
Defined.

Lemma short_node_unpadded_witness :
  isBlockTopPadded (never oneline_tokens) 6 oneline_block = Normal false
  ∧ isBlockBottomPadded (never oneline_tokens) 6 oneline_block
    = Normal false
  ∧ checkPadding (never oneline_tokens) 6 oneline_block []
    = Normal (if requirePadding (never oneline_tokens)
              then [] ++ [reportNode oneline_block ALWAYS_MESSAGE;
                          reportCloseBrace oneline_block ALWAYS_MESSAGE]
              else []).
Proof.
  apply (short_node_unpadded (never oneline_tokens) 6 oneline_block []
           (tok "Punctuator" 1 3 1 4 3 4)
           (tok "Punctuator" 1 12 1 13 12 13));
    solve [reflexivity | simpl; lia].
Defined.

Lemma analysis_local_witness :
  isBlockTopPadded (always oneline_among_tokens) 9 oneline_block
  = isBlockTopPadded (always oneline_tokens) 6 oneline_block
  ∧ isBlockBottomPadded (always oneline_among_tokens) 9 oneline_block
    = isBlockBottomPadded (always oneline_tokens) 6 oneline_block
  ∧ visit (always oneline_among_tokens) 9 oneline_block []
    = visit (always oneline_tokens) 6 oneline_block [].
Proof.
  apply (analysis_local (always oneline_tokens)
           (always oneline_among_tokens) 6 9 oneline_block []
           [] (take 2 oneline_among_tokens)
           (take 4 (drop 1 oneline_tokens))
           [] [tok "Identifier" 1 14 1 15 14 15]
           (tok "Punctuator" 1 3 1 4 3 4)
           (tok "Punctuator" 1 12 1 13 12 13));
    solve [reflexivity | simpl; lia].
Defined.

End OnMoreSamples.
